(** * detchannelmaps: hardware map service and PD2HD channel map adapter

    A shallow embedding of [src/HardwareMapService.cpp] and
    [plugins/PD2HDChannelMap.cpp], and the properties of the lookup
    tables, the geo-id packing and the map-file reader. *)

From Stdlib Require Import ZArith List String Ascii Bool Lia DecimalString.
From Stdlib Require Import DecimalPos DecimalN.
From Stdlib Require Import Permutation Sorted SetoidList.
From Stdlib Require Import OrderedType OrderedTypeEx FMapList FMapFacts.
Import ListNotations.

Local Open Scope Z_scope.

(** ** Fixed-width unsigned integers

    Unsigned integers are carried as [Z]; a conversion to a [w]-bit
    unsigned type reduces modulo [2^w]. *)

Definition uint16_t (z : Z) : Z := z mod 2 ^ 16.
Definition uint64_t (z : Z) : Z := z mod 2 ^ 64.

(** [uint] is [unsigned int], 32 bits wide. *)
Definition uint (z : Z) : Z := z mod 2 ^ 32.

Definition is_uint16 (z : Z) : Prop := 0 <= z < 2 ^ 16.
Definition is_uint64 (z : Z) : Prop := 0 <= z < 2 ^ 64.

(** [x << n] on a 64-bit unsigned operand. *)
Definition shl64 (x n : Z) : Z := uint64_t (Z.shiftl x n).

(** ** Data model *)

(** Modelled from the spec: the generated header that declares [HWInfo],
    [GeoInfo], [DROInfo] and [HardwareMap] is not among the sources.  The
    field names are those the code uses; the source id is a 32-bit and the
    other numeric fields are 16-bit unsigned integers. *)
Record HWInfo : Type := mkHWInfo {
  dro_source_id : Z;
  det_link : Z;
  det_slot : Z;
  det_crate : Z;
  det_id : Z;
  dro_host : string;
  dro_card : Z;
  dro_slr : Z;
  dro_link : Z;
  from_file : bool
}.

Record GeoInfo : Type := mkGeoInfo {
  geo_det_link : Z;
  geo_det_slot : Z;
  geo_det_crate : Z;
  geo_det_id : Z
}.

Record DROInfo : Type := mkDROInfo {
  host : string;
  card : Z;
  links : list HWInfo
}.

Record HardwareMap : Type := mkHardwareMap {
  link_infos : list HWInfo
}.

Definition set_from_file (b : bool) (h : HWInfo) : HWInfo :=
  mkHWInfo (dro_source_id h) (det_link h) (det_slot h) (det_crate h) (det_id h)
           (dro_host h) (dro_card h) (dro_slr h) (dro_link h) b.

(** ** Geo-id packing *)

(** [HardwareMapService::get_geo_id(uint16_t, uint16_t, uint16_t, uint16_t)]:
    [static_cast<uint64_t>(det_link) << 48 | static_cast<uint64_t>(det_slot) << 32
     | static_cast<uint64_t>(det_crate) << 16 | det_id]. *)
Definition get_geo_id (det_link det_slot det_crate det_id : Z) : Z :=
  let geoid :=
    Z.lor (Z.lor (Z.lor (shl64 (uint64_t det_link) 48)
                        (shl64 (uint64_t det_slot) 32))
                 (shl64 (uint64_t det_crate) 16))
          (uint64_t det_id) in
  geoid.

(** [HardwareMapService::get_geo_id(const HWInfo)]. *)
Definition get_geo_id_hw (hw_info : HWInfo) : Z :=
  get_geo_id (det_link hw_info) (det_slot hw_info)
             (det_crate hw_info) (det_id hw_info).

(** [HardwareMapService::parse_geo_id]: each field is assigned
    [0xffff & (geo_id >> k)], stored in a 16-bit field. *)
Definition parse_geo_id (geo_id : Z) : GeoInfo :=
  {| geo_det_link := uint16_t (Z.land 0xffff (Z.shiftr geo_id 48));
     geo_det_slot := uint16_t (Z.land 0xffff (Z.shiftr geo_id 32));
     geo_det_crate := uint16_t (Z.land 0xffff (Z.shiftr geo_id 16));
     geo_det_id := uint16_t (Z.land 0xffff geo_id) |}.

(** ** Outcomes of fallible operations *)

(** [std::runtime_error] with its message. *)
Inductive exception : Type :=
| runtime_error (what : string).

(** An operation returns, throws, or indexes a string outside its bounds
    (for which the language defines no behaviour). *)
Inductive result (A : Type) : Type :=
| Return (a : A)
| Throw (e : exception)
| OutOfBounds.

Arguments Return {A} a.
Arguments Throw {A} e.
Arguments OutOfBounds {A}.

(** ** Index containers *)

(** Modelled from the spec: the class header, which declares the three
    index members, is not among the sources.  The indices are ordered maps
    ([std::map]): iteration visits the keys in ascending order, [operator[]]
    assignment overwrites, and the DRO key is the pair (host, card) ordered
    lexicographically. *)
Module UIntMap := FMapList.Make Z_as_OT.
Module HostCard := PairOrderedType String_as_OT Z_as_OT.
Module DROMap := FMapList.Make HostCard.

Record HardwareMapService : Type := mkService {
  m_source_id_to_geo_ids_map : UIntMap.t (list HWInfo);
  m_geo_id_to_info_map : UIntMap.t HWInfo;
  m_dro_info_map : DROMap.t DROInfo
}.

(** A service whose members are default-constructed (empty maps). *)
Definition empty_service : HardwareMapService :=
  mkService (UIntMap.empty _) (UIntMap.empty _) (DROMap.empty _).

(** ** Index construction *)

(** Body of the first loop of [setup_maps]: the geo-id entry is assigned
    (overwriting an earlier one), and the record is appended to the bucket
    of its source id, which is created when absent. *)
Definition index_link (svc : HardwareMapService) (hw_info : HWInfo)
  : HardwareMapService :=
  let geo := UIntMap.add (get_geo_id_hw hw_info) hw_info
                         (m_geo_id_to_info_map svc) in
  let sids := m_source_id_to_geo_ids_map svc in
  let sids' :=
    match UIntMap.find (dro_source_id hw_info) sids with
    | Some vec => UIntMap.add (dro_source_id hw_info) (vec ++ [hw_info]) sids
    | None =>
        let vec := [hw_info] in
        UIntMap.add (dro_source_id hw_info) vec sids
    end in
  mkService sids' geo (m_dro_info_map svc).

Definition push_link (d : DROInfo) (hwi : HWInfo) : DROInfo :=
  mkDROInfo (host d) (card d) (links d ++ [hwi]).

(** Body of the second loop of [setup_maps]; [count(key)] is non-zero
    exactly when the key is found. *)
Definition index_dro (dros : DROMap.t DROInfo) (gid : Z * HWInfo)
  : DROMap.t DROInfo :=
  let hwi := snd gid in
  let key := (dro_host hwi, dro_card hwi) in
  match DROMap.find key dros with
  | Some d => DROMap.add key (push_link d hwi) dros
  | None => DROMap.add key (mkDROInfo (dro_host hwi) (dro_card hwi) [hwi]) dros
  end.

(** [HardwareMapService::setup_maps]. *)
Definition setup_maps (svc : HardwareMapService) (map : HardwareMap)
  : HardwareMapService :=
  let svc1 := fold_left index_link (link_infos map) svc in
  let dros := fold_left index_dro (UIntMap.elements (m_geo_id_to_info_map svc1))
                        (m_dro_info_map svc1) in
  mkService (m_source_id_to_geo_ids_map svc1) (m_geo_id_to_info_map svc1) dros.

(** [HardwareMapService::HardwareMapService(const HardwareMap&)]. *)
Definition service_of_map (map : HardwareMap) : HardwareMapService :=
  setup_maps empty_service map.

(** ** Queries *)

(** [HardwareMapService::get_hardware_map]. *)
Definition get_hardware_map (svc : HardwareMapService) : HardwareMap :=
  let output :=
    fold_left (fun out gid => out ++ [snd gid])
              (UIntMap.elements (m_geo_id_to_info_map svc)) [] in
  mkHardwareMap output.

(** [HardwareMapService::get_hw_info_from_source_id]. *)
Definition get_hw_info_from_source_id (svc : HardwareMapService)
    (dro_source_id : Z) : list HWInfo :=
  match UIntMap.find dro_source_id (m_source_id_to_geo_ids_map svc) with
  | Some vec => vec
  | None => []
  end.

(** [HardwareMapService::get_all_dro_info]. *)
Definition get_all_dro_info (svc : HardwareMapService) : list DROInfo :=
  fold_left (fun out entry => out ++ [snd entry])
            (DROMap.elements (m_dro_info_map svc)) [].

(** Decimal text of an unsigned integer, as [operator<<] prints it. *)
Definition decimal (z : Z) : string :=
  DecimalString.NilZero.string_of_uint (N.to_uint (Z.to_N z)).

(** [HardwareMapService::get_dro_info]. *)
Definition get_dro_info (svc : HardwareMapService) (host_name : string)
    (dro_card : Z) : result DROInfo :=
  let key := (host_name, dro_card) in
  match DROMap.find key (m_dro_info_map svc) with
  | Some dro => Return dro
  | None =>
      Throw (runtime_error
               ("HardwareMapService: Invalid DRO host/card pair " ++ host_name
                ++ "/" ++ decimal dro_card)%string)
  end.

(** ** Text input

    The stream operations of the C++ library that the file reader uses, on
    a stream given by its unread characters and its fail bit. *)

Definition size (s : string) : Z := Z.of_nat (String.length s).

(** [std::string::npos], the largest [size_t]. *)
Definition npos : Z := 2 ^ 64 - 1.

Fixpoint contains (chars : string) (c : ascii) : bool :=
  match chars with
  | EmptyString => false
  | String d rest => Ascii.eqb c d || contains rest c
  end.

Fixpoint find_first_not_of_from (s chars : string) (pos : Z) : Z :=
  match s with
  | EmptyString => npos
  | String c rest =>
      if contains chars c then find_first_not_of_from rest chars (pos + 1)
      else pos
  end.

(** [s.find_first_not_of(chars)]: the index of the first character of [s]
    that is not in [chars], or [npos]. *)
Definition find_first_not_of (s chars : string) : Z :=
  find_first_not_of_from s chars 0.

(** [s[pos]]: the character at [pos]; the null character when
    [pos == s.size()]; outside the bounds of [s] beyond that. *)
Definition string_at (s : string) (pos : Z) : option ascii :=
  if (0 <=? pos) && (pos <? size s) then String.get (Z.to_nat pos) s
  else if pos =? size s then Some zero
  else None.

Definition newline : ascii := ascii_of_N 10.

(** The successive lines that [std::getline] yields until it fails: a line
    ends at a newline, which is dropped, or at the end of the input, and
    [getline] fails when no character is left. *)
Fixpoint getlines (inFile : string) : list string :=
  match inFile with
  | EmptyString => []
  | String c rest =>
      if Ascii.eqb c newline then EmptyString :: getlines rest
      else match getlines rest with
           | [] => [String c EmptyString]
           | line :: more => String c line :: more
           end
  end.

(** One call of [std::getline]: the line and the unread rest, or [None]. *)
Fixpoint getline_chars (inFile : string) : string * string :=
  match inFile with
  | EmptyString => (EmptyString, EmptyString)
  | String c rest =>
      if Ascii.eqb c newline then (EmptyString, rest)
      else let (line, rest') := getline_chars rest in (String c line, rest')
  end.

Definition getline (inFile : string) : option (string * string) :=
  match inFile with
  | EmptyString => None
  | _ => Some (getline_chars inFile)
  end.

Record istream : Type := mkStream {
  unread : string;
  failbit : bool
}.

Definition isspace (c : ascii) : bool :=
  let n := N_of_ascii c in
  ((n =? 32) || ((9 <=? n) && (n <=? 13)))%N.

Fixpoint skipws (s : string) : string :=
  match s with
  | EmptyString => EmptyString
  | String c rest => if isspace c then skipws rest else s
  end.

Definition isdigit (c : ascii) : bool :=
  let n := N_of_ascii c in ((48 <=? n) && (n <=? 57))%N.

Definition digit_value (c : ascii) : Z := Z.of_N (N_of_ascii c) - 48.

(** The leading decimal digits of [s]: their value (continuing [acc]),
    whether there was any, and what follows them. *)
Fixpoint read_digits (s : string) (acc : Z) (any : bool) : Z * bool * string :=
  match s with
  | EmptyString => (acc, any, EmptyString)
  | String c rest =>
      if isdigit c then read_digits rest (10 * acc + digit_value c) true
      else (acc, any, s)
  end.

(** [strm >> v] for an unsigned [v] of [bits] bits.  Nothing happens on a
    failed stream.  Leading white space is skipped; reaching the end there
    fails the stream and leaves [v] alone.  An optional sign and the
    decimal digits are read: without digits the stream fails and [v] is
    zero; a magnitude above the largest value fails the stream and [v] is
    that largest value; a minus sign negates within the type. *)
Definition extract_unsigned (bits : Z) (strm : istream) (v : Z) : istream * Z :=
  if failbit strm then (strm, v)
  else
    match skipws (unread strm) with
    | EmptyString => (mkStream EmptyString true, v)
    | String c rest as s =>
        let negative := Ascii.eqb c "-" in
        let signed := negative || Ascii.eqb c "+" in
        let '(magnitude, any, rest') :=
          read_digits (if signed then rest else s) 0 false in
        if negb any then (mkStream rest' true, 0)
        else if 2 ^ bits - 1 <? magnitude then (mkStream rest' true, 2 ^ bits - 1)
        else (mkStream rest' false,
              if negative then (- magnitude) mod 2 ^ bits else magnitude)
    end.

Fixpoint read_word (s : string) : string * string :=
  match s with
  | EmptyString => (EmptyString, EmptyString)
  | String c rest =>
      if isspace c then (EmptyString, s)
      else let (w, rest') := read_word rest in (String c w, rest')
  end.

(** [strm >> str] for a [std::string]: the next run of characters that are
    not white space. *)
Definition extract_string (strm : istream) (str : string) : istream * string :=
  if failbit strm then (strm, str)
  else
    match skipws (unread strm) with
    | EmptyString => (mkStream EmptyString true, str)
    | s => let (w, rest) := read_word s in (mkStream rest false, w)
    end.

(** ** The service, given the value of a default-constructed record *)

Section Service.

(** The value of [HWInfo hw_info;]: it is fixed by the generated header
    that declares the record, which is not among the sources. *)
Variable HWInfo_default : HWInfo.

(** [HardwareMapService::get_hw_info_from_geo_id]. *)
Definition get_hw_info_from_geo_id (svc : HardwareMapService) (geo_id : Z)
  : HWInfo :=
  match UIntMap.find geo_id (m_geo_id_to_info_map svc) with
  | Some hw => hw
  | None =>
      let hw_info := HWInfo_default in
      set_from_file false hw_info
  end.

(** The nine extractions of the reading loop, then [from_file = true]. *)
Definition read_fields (line : string) : HWInfo :=
  let hw_info := HWInfo_default in
  let linestream := mkStream line false in
  let '(linestream, v_source_id) :=
    extract_unsigned 32 linestream (dro_source_id hw_info) in
  let '(linestream, v_link) := extract_unsigned 16 linestream (det_link hw_info) in
  let '(linestream, v_slot) := extract_unsigned 16 linestream (det_slot hw_info) in
  let '(linestream, v_crate) := extract_unsigned 16 linestream (det_crate hw_info) in
  let '(linestream, v_id) := extract_unsigned 16 linestream (det_id hw_info) in
  let '(linestream, v_host) := extract_string linestream (dro_host hw_info) in
  let '(linestream, v_card) := extract_unsigned 16 linestream (dro_card hw_info) in
  let '(linestream, v_slr) := extract_unsigned 16 linestream (dro_slr hw_info) in
  let '(_, v_dro_link) := extract_unsigned 16 linestream (dro_link hw_info) in
  mkHWInfo v_source_id v_link v_slot v_crate v_id v_host v_card v_slr v_dro_link
           true.

(** Body of the reading loop for one line: [continue] on an empty line
    or on a line whose character at [find_first_not_of(" \t")] is [#],
    otherwise parse the line and append the record. *)
Definition read_line (link_infos : list HWInfo) (line : string)
  : result (list HWInfo) :=
  if size line =? 0 then Return link_infos
  else
    match string_at line (find_first_not_of line (String " " (String "009" EmptyString))) with
    | None => OutOfBounds
    | Some c =>
        if Ascii.eqb c "#" then Return link_infos
        else Return (link_infos ++ [read_fields line])
    end.

(** The reading loop over the lines of the file. *)
Fixpoint read_lines (lines : list string) (link_infos : list HWInfo)
  : result (list HWInfo) :=
  match lines with
  | [] => Return link_infos
  | line :: rest =>
      match read_line link_infos line with
      | Return link_infos' => read_lines rest link_infos'
      | Throw e => Throw e
      | OutOfBounds => OutOfBounds
      end
  end.

(** The records the constructor reads from a file of the given content. *)
Definition read_hardware_map (content : string) : result HardwareMap :=
  match read_lines (getlines content) [] with
  | Return link_infos => Return (mkHardwareMap link_infos)
  | Throw e => Throw e
  | OutOfBounds => OutOfBounds
  end.

(** [HardwareMapService::HardwareMapService(const std::string&)], where
    [open_file] gives the content of the files that can be opened. *)
Definition service_of_file (open_file : string -> option string)
    (filename : string) : result HardwareMapService :=
  match open_file filename with
  | None =>
      Throw (runtime_error
               ("HardwareMapService: Invalid map file " ++ filename)%string)
  | Some content =>
      match read_hardware_map content with
      | Return hw_map_from_file =>
          Return (setup_maps empty_service hw_map_from_file)
      | Throw e => Throw e
      | OutOfBounds => OutOfBounds
      end
  end.

End Service.

(** ** The PD2HD channel map adapter *)

Module dune.

(** Modelled from the spec: the channel map library is an external
    collaborator, not among the sources.  A lookup returns a channel
    record carrying a validity flag; only the fields the adapter reads
    are kept. *)
Record HDChanInfo_t : Type := mkHDChanInfo {
  offlchan : Z;
  crate : Z;
  wib : Z;
  link : Z;
  plane : Z;
  wibframechan : Z;
  valid : bool
}.

Record PD2HDChannelMapSP : Type := mkPD2HDChannelMapSP {
  GetChanInfoFromWIBElements : Z -> Z -> Z -> Z -> HDChanInfo_t;
  GetChanInfoFromOfflChan : Z -> HDChanInfo_t
}.

End dune.

Module PD2HDChannelMap.

Record TPCCoords : Type := mkTPCCoords {
  crate : Z;
  slot : Z;
  fiber : Z;
  channel : Z
}.

Record t : Type := mk {
  m_channel_map : dune.PD2HDChannelMapSP
}.

(** [get_offline_channel_from_crate_slot_fiber_chan]; the result type is
    [uint], to which [-1] is converted. *)
Definition get_offline_channel_from_crate_slot_fiber_chan (self : t)
    (crate slot link wibframechan : Z) : Z :=
  let chan_info :=
    dune.GetChanInfoFromWIBElements (m_channel_map self)
                                    crate slot link wibframechan in
  if negb (dune.valid chan_info) then uint (-1)
  else uint (dune.offlchan chan_info).

(** [get_plane_from_offline_channel]. *)
Definition get_plane_from_offline_channel (self : t) (offchannel : Z) : Z :=
  let chan_info := dune.GetChanInfoFromOfflChan (m_channel_map self) offchannel in
  if negb (dune.valid chan_info) then uint 9999
  else uint (dune.plane chan_info).

(** [get_crate_slot_fiber_chan_from_offline_channel]; [ci.wib-1] is an
    unsigned subtraction. *)
Definition get_crate_slot_fiber_chan_from_offline_channel (self : t)
    (offchannel : Z) : option TPCCoords :=
  let ci := dune.GetChanInfoFromOfflChan (m_channel_map self) offchannel in
  if negb (dune.valid ci) then None
  else Some (mkTPCCoords (dune.crate ci) (uint (dune.wib ci - 1))
                         (dune.link ci) (dune.wibframechan ci)).

End PD2HDChannelMap.

(** * Specification-level definitions *)

(** Equality of (host, card) keys. *)
Definition key_eqb (a b : string * Z) : bool :=
  String.eqb (fst a) (fst b) && Z.eqb (snd a) (snd b).

(** The last record of [l] whose geo-id is [g]. *)
Fixpoint last_with_geo_id (g : Z) (l : list HWInfo) : option HWInfo :=
  match l with
  | [] => None
  | h :: t =>
      match last_with_geo_id g t with
      | Some h' => Some h'
      | None => if get_geo_id_hw h =? g then Some h else None
      end
  end.

(** The records among the entries [es] whose (host, card) pair is [key]. *)
Definition matching (key : string * Z) (es : list (Z * HWInfo)) : list HWInfo :=
  filter (fun hwi => key_eqb (dro_host hwi, dro_card hwi) key) (map snd es).

(** The records held by the geo-id index, in its iteration order. *)
Definition geo_records (svc : HardwareMapService) : list HWInfo :=
  map snd (UIntMap.elements (m_geo_id_to_info_map svc)).

(** The argument of [find_first_not_of] in the reading loop: a space and
    a tab. *)
Definition blanks : string := String " " (String "009" EmptyString).

(** Every character of [s] is one of [chars]. *)
Fixpoint all_in (chars s : string) : bool :=
  match s with
  | EmptyString => true
  | String c rest => contains chars c && all_in chars rest
  end.

(** ** Example data *)

Definition example_default : HWInfo :=
  mkHWInfo 0 0 0 0 0 "localhost" 0 0 0 false.

Definition example_link (source_id id : Z) (host_name : string) (card link : Z)
  : HWInfo :=
  mkHWInfo source_id 0 0 1 id host_name card 0 link true.

(** Three links with different geo-ids, the first two on one DRO; the
    input order is not the order of the geo-ids. *)
Definition example_map : HardwareMap :=
  mkHardwareMap [example_link 7 2 "hostA" 10 0;
                 example_link 7 1 "hostA" 10 1;
                 example_link 8 3 "hostB" 10 0].

(** Two different records that share a geo-id. *)
Definition example_duplicates : HardwareMap :=
  mkHardwareMap [example_link 7 1 "hostA" 10 0;
                 example_link 7 1 "hostA" 10 1].

(** The file of the parsing scenario: a record line, a comment line and a
    blank line. *)
Definition scenario_file : string :=
  ("1 2 3 4 5 hostA 10 0 0" ++ String newline
   ("# comment" ++ String newline
    (String newline EmptyString)))%string.

(** A channel map that knows offline channel 0 only, at crate 1, WIB 1,
    link 0, channel 0. *)
Definition example_channel_map : PD2HDChannelMap.t :=
  let known := dune.mkHDChanInfo 0 1 1 0 2 0 true in
  let unknown := dune.mkHDChanInfo 0 0 0 0 0 0 false in
  PD2HDChannelMap.mk
    (dune.mkPD2HDChannelMapSP
       (fun crate slot link chan =>
          if (crate =? 1) && (slot =? 0) && (link =? 0) && (chan =? 0)
          then known else unknown)
       (fun offchannel => if offchannel =? 0 then known else unknown)).

(** * Properties *)

(** ** Bit-level facts about the packing *)

Lemma uint64_t_id (z : Z) : is_uint64 z -> uint64_t z = z.
Proof. unfold is_uint64, uint64_t. intros H. apply Z.mod_small. lia. Qed.

Lemma uint16_t_id (z : Z) : is_uint16 z -> uint16_t z = z.
Proof. unfold is_uint16, uint16_t. intros H. apply Z.mod_small. lia. Qed.

Lemma uint64_t_range (z : Z) : is_uint64 (uint64_t z).
Proof. unfold is_uint64, uint64_t. apply Z.mod_pos_bound. lia. Qed.

Lemma is_uint16_64 (z : Z) : is_uint16 z -> is_uint64 z.
Proof. unfold is_uint16, is_uint64. lia. Qed.

Lemma land_ffff (z : Z) : Z.land 0xffff z = z mod 2 ^ 16.
Proof.
  rewrite Z.land_comm. change 0xffff with (Z.ones 16).
  apply Z.land_ones. lia.
Qed.

Lemma testbit_mod_pow2 (z n i : Z) :
  0 <= n -> Z.testbit (z mod 2 ^ n) i = (i <? n) && Z.testbit z i.
Proof.
  intros Hn. destruct (Z.ltb_spec i n) as [Hlt | Hge]; simpl.
  - apply Z.mod_pow2_bits_low; lia.
  - apply Z.mod_pow2_bits_high; lia.
Qed.

Lemma testbit_uint16_high (z i : Z) :
  is_uint16 z -> 16 <= i -> Z.testbit z i = false.
Proof.
  intros Hz Hi. rewrite <- (uint16_t_id z Hz). unfold uint16_t.
  rewrite testbit_mod_pow2 by lia.
  destruct (Z.ltb_spec i 16); [lia | reflexivity].
Qed.

Lemma lor_is_uint64 (a b : Z) : is_uint64 a -> is_uint64 b -> is_uint64 (Z.lor a b).
Proof.
  intros Ha Hb.
  replace (Z.lor a b) with (uint64_t (Z.lor a b)); [apply uint64_t_range |].
  apply Z.bits_inj'; intros n Hn. unfold uint64_t.
  rewrite testbit_mod_pow2 by lia.
  destruct (Z.ltb_spec n 64) as [Hlt | Hge]; [reflexivity |]. simpl.
  rewrite Z.lor_spec.
  rewrite <- (uint64_t_id a Ha), <- (uint64_t_id b Hb). unfold uint64_t.
  rewrite !testbit_mod_pow2 by lia.
  destruct (Z.ltb_spec n 64); [lia | reflexivity].
Qed.

Lemma get_geo_id_range (l s c i : Z) : is_uint64 (get_geo_id l s c i).
Proof.
  unfold get_geo_id, shl64.
  repeat apply lor_is_uint64; apply uint64_t_range.
Qed.

(** Bit [n] of a packed geo-id, for 16-bit fields. *)
Lemma get_geo_id_testbit (l s c i n : Z) :
  is_uint16 l -> is_uint16 s -> is_uint16 c -> is_uint16 i -> 0 <= n ->
  Z.testbit (get_geo_id l s c i) n =
    if n <? 16 then Z.testbit i n
    else if n <? 32 then Z.testbit c (n - 16)
    else if n <? 48 then Z.testbit s (n - 32)
    else if n <? 64 then Z.testbit l (n - 48)
    else false.
Proof.
  intros Hl Hs Hc Hi Hn. unfold get_geo_id, shl64.
  rewrite !(uint64_t_id l), !(uint64_t_id s), !(uint64_t_id c), !(uint64_t_id i)
    by (apply is_uint16_64; assumption).
  unfold uint64_t.
  rewrite !Z.lor_spec, !testbit_mod_pow2, !Z.shiftl_spec by lia.
  destruct (Z.ltb_spec n 16); destruct (Z.ltb_spec n 32);
    destruct (Z.ltb_spec n 48); destruct (Z.ltb_spec n 64); try lia; simpl;
    rewrite ?(Z.testbit_neg_r l), ?(Z.testbit_neg_r s), ?(Z.testbit_neg_r c) by lia;
    rewrite ?(testbit_uint16_high l), ?(testbit_uint16_high s),
            ?(testbit_uint16_high c), ?(testbit_uint16_high i) by (assumption || lia);
    simpl; rewrite ?orb_false_r; reflexivity.
Qed.

Lemma parse_field_testbit (x k n : Z) :
  0 <= k -> 0 <= n ->
  Z.testbit (uint16_t (Z.land 0xffff (Z.shiftr x k))) n =
    (n <? 16) && Z.testbit x (n + k).
Proof.
  intros Hk Hn. rewrite land_ffff. unfold uint16_t.
  rewrite Z.mod_mod by lia.
  rewrite testbit_mod_pow2 by lia. rewrite Z.shiftr_spec by lia. reflexivity.
Qed.

Lemma parse_field_range (x k : Z) :
  is_uint16 (uint16_t (Z.land 0xffff (Z.shiftr x k))).
Proof. unfold is_uint16, uint16_t. apply Z.mod_pos_bound. lia. Qed.

Ltac case_ltb :=
  repeat match goal with
         | |- context [Z.ltb ?a ?b] => destruct (Z.ltb_spec a b)
         end.

Lemma parse_get_geo_id (l s c i : Z) :
  is_uint16 l -> is_uint16 s -> is_uint16 c -> is_uint16 i ->
  parse_geo_id (get_geo_id l s c i) = mkGeoInfo l s c i.
Proof.
  intros Hl Hs Hc Hi. unfold parse_geo_id.
  replace (Z.land 0xffff (get_geo_id l s c i))
    with (Z.land 0xffff (Z.shiftr (get_geo_id l s c i) 0))
    by (rewrite Z.shiftr_0_r; reflexivity).
  f_equal; apply Z.bits_inj'; intros n Hn;
    rewrite parse_field_testbit, get_geo_id_testbit by (assumption || lia);
    case_ltb; cbn [andb]; try (exfalso; lia);
    solve [ f_equal; lia
          | symmetry; apply testbit_uint16_high; [assumption | lia] ].
Qed.

(** Repacking the fields of a parsed geo-id restores every 64-bit value. *)
Lemma get_parse_geo_id_64 (x : Z) :
  is_uint64 x ->
  let g := parse_geo_id x in
  get_geo_id (geo_det_link g) (geo_det_slot g) (geo_det_crate g) (geo_det_id g) = x.
Proof.
  intros Hx g; subst g. unfold parse_geo_id.
  cbn [geo_det_link geo_det_slot geo_det_crate geo_det_id].
  apply Z.bits_inj'; intros n Hn.
  replace (Z.land 0xffff x) with (Z.land 0xffff (Z.shiftr x 0))
    by (rewrite Z.shiftr_0_r; reflexivity).
  rewrite get_geo_id_testbit by (try apply parse_field_range; lia).
  case_ltb; rewrite ?parse_field_testbit by lia;
    case_ltb; cbn [andb]; try (exfalso; lia); try (f_equal; lia).
  symmetry. rewrite <- (uint64_t_id x Hx). unfold uint64_t.
  rewrite testbit_mod_pow2 by lia.
  case_ltb; [lia | reflexivity].
Qed.

(** C1: [parse_geo_id] is the exact inverse of [get_geo_id]: parsing the
    packed value of four 16-bit fields returns exactly those fields, and
    packing the four fields parsed from a 64-bit [x] whose top 16 bits are
    zero returns [x]. *)
Theorem parse_geo_id_inverse_of_get_geo_id :
  (forall l s c i : Z,
      is_uint16 l -> is_uint16 s -> is_uint16 c -> is_uint16 i ->
      parse_geo_id (get_geo_id l s c i) =
        {| geo_det_link := l; geo_det_slot := s;
           geo_det_crate := c; geo_det_id := i |}) /\
  (forall x : Z,
      is_uint64 x -> Z.shiftr x 48 = 0 ->
      get_geo_id (geo_det_link (parse_geo_id x)) (geo_det_slot (parse_geo_id x))
                 (geo_det_crate (parse_geo_id x)) (geo_det_id (parse_geo_id x)) = x).
Proof.
  split.
  - exact parse_get_geo_id.
  - intros x Hx _. exact (get_parse_geo_id_64 x Hx).
Qed.

Lemma parse_geo_id_inverse_of_get_geo_id_witness :
  parse_geo_id (get_geo_id 2 3 4 5) =
    {| geo_det_link := 2; geo_det_slot := 3; geo_det_crate := 4; geo_det_id := 5 |} /\
  get_geo_id (geo_det_link (parse_geo_id 12885164037))
             (geo_det_slot (parse_geo_id 12885164037))
             (geo_det_crate (parse_geo_id 12885164037))
             (geo_det_id (parse_geo_id 12885164037)) = 12885164037.
Proof.
  split.
  - apply (proj1 parse_geo_id_inverse_of_get_geo_id); unfold is_uint16; lia.
  - apply (proj2 parse_geo_id_inverse_of_get_geo_id).
    + unfold is_uint64; lia.
    + reflexivity.
Defined.

(** ** Facts about the index containers *)

Module UIntMapF := FMapFacts.Facts UIntMap.
Module DROMapF := FMapFacts.Facts DROMap.

Lemma key_eqb_spec (a b : string * Z) : reflect (a = b) (key_eqb a b).
Proof.
  destruct a as [ha ca], b as [hb cb]. unfold key_eqb; cbn [fst snd].
  destruct (String.eqb_spec ha hb) as [-> | Hh]; cbn [andb].
  - destruct (Z.eqb_spec ca cb) as [-> | Hc]; constructor; congruence.
  - constructor; congruence.
Qed.

Lemma uint_find_add {A} (k g : Z) (v : A) (m : UIntMap.t A) :
  UIntMap.find g (UIntMap.add k v m) =
    if k =? g then Some v else UIntMap.find g m.
Proof.
  destruct (Z.eqb_spec k g) as [Heq | Hne].
  - apply UIntMapF.add_eq_o. exact Heq.
  - apply UIntMapF.add_neq_o. exact Hne.
Qed.

Lemma dro_find_add {A} (k key : string * Z) (v : A) (m : DROMap.t A) :
  DROMap.find key (DROMap.add k v m) =
    if key_eqb k key then Some v else DROMap.find key m.
Proof.
  destruct (key_eqb_spec k key) as [Heq | Hne].
  - apply DROMapF.add_eq_o. subst; split; reflexivity.
  - apply DROMapF.add_neq_o. intros [H1 H2]. apply Hne.
    destruct k, key; cbn [fst snd] in *; congruence.
Qed.

Lemma uint_elements_In {A} (m : UIntMap.t A) (k : Z) (v : A) :
  In (k, v) (UIntMap.elements m) <-> UIntMap.find k m = Some v.
Proof.
  rewrite <- UIntMapF.find_mapsto_iff, UIntMapF.elements_mapsto_iff.
  rewrite InA_alt. split.
  - intros H. exists (k, v). split; [split; reflexivity | exact H].
  - intros [[k' v'] [[Hk Hv] Hin]]. cbn in Hk, Hv. subst. exact Hin.
Qed.

Lemma uint_elements_keys_sorted {A} (m : UIntMap.t A) :
  StronglySorted Z.lt (map fst (UIntMap.elements m)).
Proof.
  pose proof (UIntMap.elements_3 m) as Hs.
  apply Sorted_StronglySorted; [exact Z.lt_strorder.(StrictOrder_Transitive) |].
  induction Hs as [| p l Hl IH Hhd]; cbn [map]; constructor.
  - exact IH.
  - destruct Hhd as [| q l' Hpq]; cbn [map]; constructor. exact Hpq.
Qed.

Lemma StronglySorted_lt_NoDup (l : list Z) : StronglySorted Z.lt l -> NoDup l.
Proof.
  induction 1 as [| a l Hl IH Hall]; constructor; [| exact IH].
  intros Hin. rewrite Forall_forall in Hall. specialize (Hall a Hin). lia.
Qed.

Lemma fold_left_push {A B} (f : A -> B) (l : list A) (out : list B) :
  fold_left (fun out x => out ++ [f x]) l out = out ++ map f l.
Proof.
  revert out. induction l as [| x l IH]; intros out; cbn [fold_left map].
  - rewrite app_nil_r. reflexivity.
  - rewrite IH, <- app_assoc. reflexivity.
Qed.

(** ** The first loop of [setup_maps] *)

Lemma last_with_geo_id_Some (g : Z) (l : list HWInfo) (h : HWInfo) :
  last_with_geo_id g l = Some h -> In h l /\ get_geo_id_hw h = g.
Proof.
  induction l as [| a t IH]; cbn [last_with_geo_id]; [discriminate |].
  destruct (last_with_geo_id g t) as [h' |].
  - intros [= ->]. destruct (IH eq_refl) as [Hin Hg]. split; [right |]; assumption.
  - destruct (Z.eqb_spec (get_geo_id_hw a) g) as [Hg | Hg]; [| discriminate].
    intros [= ->]. split; [left; reflexivity | exact Hg].
Qed.

Lemma last_with_geo_id_None (g : Z) (l : list HWInfo) :
  last_with_geo_id g l = None <-> (forall h, In h l -> get_geo_id_hw h <> g).
Proof.
  induction l as [| a t IH]; cbn [last_with_geo_id].
  - split; [intros _ h [] | reflexivity].
  - destruct (last_with_geo_id g t) as [h' |] eqn:Ht.
    + split; [discriminate |]. intros Hall.
      destruct (last_with_geo_id_Some g t h' Ht) as [Hin Hg].
      exfalso. apply (Hall h'); [right; exact Hin | exact Hg].
    + destruct (Z.eqb_spec (get_geo_id_hw a) g) as [Hg | Hg].
      * split; [discriminate |]. intros Hall. exfalso.
        apply (Hall a); [left; reflexivity | exact Hg].
      * split; [| reflexivity]. intros _ h [<- | Hin]; [exact Hg |].
        apply (proj1 IH eq_refl); exact Hin.
Qed.

Lemma last_with_geo_id_app (g : Z) (l1 l2 : list HWInfo) :
  last_with_geo_id g (l1 ++ l2) =
    match last_with_geo_id g l2 with
    | Some h => Some h
    | None => last_with_geo_id g l1
    end.
Proof.
  induction l1 as [| a t IH]; cbn [app last_with_geo_id].
  - destruct (last_with_geo_id g l2); reflexivity.
  - rewrite IH. destruct (last_with_geo_id g l2); reflexivity.
Qed.

Lemma NoDup_map_injective {A B} (f : A -> B) (l : list A) (x y : A) :
  NoDup (map f l) -> In x l -> In y l -> f x = f y -> x = y.
Proof.
  induction l as [| a t IH]; cbn [map]; intros Hnd Hx Hy Hf; [destruct Hx |].
  inversion Hnd as [| ? ? Hnotin Hnd']; subst.
  destruct Hx as [-> | Hx], Hy as [-> | Hy].
  - reflexivity.
  - exfalso. apply Hnotin. rewrite Hf. apply in_map. exact Hy.
  - exfalso. apply Hnotin. rewrite <- Hf. apply in_map. exact Hx.
  - apply IH; assumption.
Qed.

(** With unique geo-ids, the last record with the geo-id of a record of
    the list is that record. *)
Lemma last_with_geo_id_unique (l : list HWInfo) (h : HWInfo) :
  NoDup (map get_geo_id_hw l) -> In h l ->
  last_with_geo_id (get_geo_id_hw h) l = Some h.
Proof.
  intros Hnd Hin.
  destruct (last_with_geo_id (get_geo_id_hw h) l) as [h' |] eqn:Hl.
  - destruct (last_with_geo_id_Some _ _ _ Hl) as [Hin' Hg].
    f_equal. apply (NoDup_map_injective get_geo_id_hw l); assumption.
  - exfalso. apply (proj1 (last_with_geo_id_None _ _) Hl h Hin). reflexivity.
Qed.

Lemma index_link_dro (svc : HardwareMapService) (l : list HWInfo) :
  m_dro_info_map (fold_left index_link l svc) = m_dro_info_map svc.
Proof.
  revert svc. induction l as [| h t IH]; intros svc; cbn [fold_left].
  - reflexivity.
  - rewrite IH. reflexivity.
Qed.

(** The geo-id index after the first loop. *)
Lemma index_link_geo (svc : HardwareMapService) (l : list HWInfo) (g : Z) :
  UIntMap.find g (m_geo_id_to_info_map (fold_left index_link l svc)) =
    match last_with_geo_id g l with
    | Some h => Some h
    | None => UIntMap.find g (m_geo_id_to_info_map svc)
    end.
Proof.
  revert svc. induction l as [| h t IH]; intros svc;
    cbn [fold_left last_with_geo_id].
  - reflexivity.
  - rewrite IH. destruct (last_with_geo_id g t); [reflexivity |].
    unfold index_link; cbn [m_geo_id_to_info_map].
    rewrite uint_find_add.
    destruct (get_geo_id_hw h =? g); reflexivity.
Qed.

(** The bucket of a source id after the first loop. *)
Lemma index_link_source_id (svc : HardwareMapService) (l : list HWInfo) (sid : Z) :
  get_hw_info_from_source_id (fold_left index_link l svc) sid =
    get_hw_info_from_source_id svc sid ++
    filter (fun h => dro_source_id h =? sid) l.
Proof.
  revert svc. induction l as [| h t IH]; intros svc; cbn [fold_left filter].
  - rewrite app_nil_r. reflexivity.
  - rewrite IH. unfold get_hw_info_from_source_id at 1.
    unfold index_link; cbn [m_source_id_to_geo_ids_map].
    unfold get_hw_info_from_source_id.
    destruct (UIntMap.find (dro_source_id h) (m_source_id_to_geo_ids_map svc))
      as [vec |] eqn:Hb; rewrite uint_find_add;
      destruct (Z.eqb_spec (dro_source_id h) sid) as [Heq | Hne].
    + subst sid. rewrite Hb, <- app_assoc. reflexivity.
    + reflexivity.
    + subst sid. rewrite Hb. reflexivity.
    + reflexivity.
Qed.

(** ** The second loop of [setup_maps] *)

Lemma index_dro_find (es : list (Z * HWInfo)) (dros : DROMap.t DROInfo)
    (key : string * Z) :
  DROMap.find key (fold_left index_dro es dros) =
    match DROMap.find key dros with
    | Some d => Some (mkDROInfo (host d) (card d) (links d ++ matching key es))
    | None =>
        match matching key es with
        | [] => None
        | ls => Some (mkDROInfo (fst key) (snd key) ls)
        end
    end.
Proof.
  revert dros. induction es as [| [g hwi] es IH]; intros dros.
  - cbn [fold_left]. unfold matching; cbn [map filter].
    destruct (DROMap.find key dros) as [[h c ls] |]; [| reflexivity].
    cbn [host card links]. rewrite app_nil_r. reflexivity.
  - cbn [fold_left]. rewrite IH. unfold matching; cbn [map filter snd].
    fold (matching key es). unfold index_dro; cbn [snd].
    destruct (DROMap.find (dro_host hwi, dro_card hwi) dros) as [d |] eqn:Hd;
      rewrite dro_find_add;
      destruct (key_eqb_spec (dro_host hwi, dro_card hwi) key) as [Hk | Hk].
    + subst key. rewrite Hd. unfold push_link; cbn [host card links].
      rewrite <- app_assoc. reflexivity.
    + reflexivity.
    + subst key. rewrite Hd. cbn [host card links fst snd app]. reflexivity.
    + reflexivity.
Qed.

(** ** The constructed service *)

Lemma service_geo_find (map : HardwareMap) (g : Z) :
  UIntMap.find g (m_geo_id_to_info_map (service_of_map map)) =
    last_with_geo_id g (link_infos map).
Proof.
  unfold service_of_map, setup_maps; cbn [m_geo_id_to_info_map].
  rewrite index_link_geo. cbn [empty_service m_geo_id_to_info_map].
  rewrite UIntMapF.empty_o. destruct (last_with_geo_id g (link_infos map)); reflexivity.
Qed.

Lemma service_source_id (map : HardwareMap) (sid : Z) :
  get_hw_info_from_source_id (service_of_map map) sid =
    filter (fun h => dro_source_id h =? sid) (link_infos map).
Proof.
  unfold service_of_map, setup_maps.
  unfold get_hw_info_from_source_id at 1; cbn [m_source_id_to_geo_ids_map].
  fold (get_hw_info_from_source_id (fold_left index_link (link_infos map) empty_service) sid).
  rewrite index_link_source_id.
  unfold get_hw_info_from_source_id; cbn [empty_service m_source_id_to_geo_ids_map].
  rewrite UIntMapF.empty_o. reflexivity.
Qed.

Lemma service_dro_find (map : HardwareMap) (key : string * Z) :
  DROMap.find key (m_dro_info_map (service_of_map map)) =
    match filter (fun hwi => key_eqb (dro_host hwi, dro_card hwi) key)
                 (geo_records (service_of_map map)) with
    | [] => None
    | ls => Some (mkDROInfo (fst key) (snd key) ls)
    end.
Proof.
  unfold geo_records, service_of_map, setup_maps;
    cbn [m_dro_info_map m_geo_id_to_info_map].
  rewrite index_dro_find, index_link_dro. cbn [empty_service m_dro_info_map].
  rewrite DROMapF.empty_o. reflexivity.
Qed.

(** A record is held by the geo-id index exactly when it is the last
    record of the input with its geo-id. *)
Lemma geo_records_In (map : HardwareMap) (r : HWInfo) :
  In r (geo_records (service_of_map map)) <->
  last_with_geo_id (get_geo_id_hw r) (link_infos map) = Some r.
Proof.
  unfold geo_records. rewrite in_map_iff. split.
  - intros [[k r'] [Hr Hin]]. cbn [snd] in Hr. subst r'.
    rewrite uint_elements_In, service_geo_find in Hin.
    destruct (last_with_geo_id_Some _ _ _ Hin) as [_ Hg]. rewrite Hg. exact Hin.
  - intros Hl. exists (get_geo_id_hw r, r). split; [reflexivity |].
    rewrite uint_elements_In, service_geo_find. exact Hl.
Qed.

(** Every entry of the geo-id index is keyed by the geo-id of its record. *)
Lemma geo_records_keys (map : HardwareMap) :
  List.map get_geo_id_hw (geo_records (service_of_map map)) =
    List.map fst (UIntMap.elements (m_geo_id_to_info_map (service_of_map map))).
Proof.
  unfold geo_records. rewrite map_map. apply map_ext_in.
  intros [k r] Hin. cbn [fst snd].
  rewrite uint_elements_In, service_geo_find in Hin.
  apply (last_with_geo_id_Some _ _ _ Hin).
Qed.

Lemma geo_records_sorted (map : HardwareMap) :
  StronglySorted Z.lt (List.map get_geo_id_hw (geo_records (service_of_map map))).
Proof. rewrite geo_records_keys. apply uint_elements_keys_sorted. Qed.

Lemma geo_records_NoDup (map : HardwareMap) :
  NoDup (geo_records (service_of_map map)).
Proof.
  apply (NoDup_map_inv get_geo_id_hw), StronglySorted_lt_NoDup, geo_records_sorted.
Qed.

Lemma get_hardware_map_records (svc : HardwareMapService) :
  link_infos (get_hardware_map svc) = geo_records svc.
Proof.
  unfold get_hardware_map, geo_records; cbn [link_infos].
  rewrite fold_left_push. reflexivity.
Qed.

Lemma geo_lookup_last (dflt : HWInfo) (map : HardwareMap) (h : HWInfo) :
  last_with_geo_id (get_geo_id_hw h) (link_infos map) = Some h ->
  get_hw_info_from_geo_id dflt (service_of_map map) (get_geo_id_hw h) = h.
Proof.
  intros Hl. unfold get_hw_info_from_geo_id.
  rewrite service_geo_find, Hl. reflexivity.
Qed.

(** With unique geo-ids the geo-id index holds exactly the input records. *)
Lemma geo_records_unique_In (map : HardwareMap) (r : HWInfo) :
  NoDup (List.map get_geo_id_hw (link_infos map)) ->
  (In r (geo_records (service_of_map map)) <-> In r (link_infos map)).
Proof.
  intros Hnd. rewrite geo_records_In. split.
  - intros Hl. apply (last_with_geo_id_Some _ _ _ Hl).
  - apply last_with_geo_id_unique. exact Hnd.
Qed.

Ltac solve_NoDup :=
  vm_compute;
  repeat (constructor; [simpl; intuition discriminate |]); constructor.

(** ** Lookups by geo-id *)

(** C2: for every record [h] of the input of [setup_maps], if the geo-ids
    are unique across the input, looking up the geo-id of [h] returns a
    record equal to [h]. *)
Theorem geo_id_lookup_returns_inserted_record
    (dflt : HWInfo) (map : HardwareMap) (h : HWInfo) :
  NoDup (List.map get_geo_id_hw (link_infos map)) ->
  In h (link_infos map) ->
  get_hw_info_from_geo_id dflt (service_of_map map) (get_geo_id_hw h) = h.
Proof.
  intros Hnd Hin. apply geo_lookup_last.
  apply last_with_geo_id_unique; assumption.
Qed.

Lemma geo_id_lookup_returns_inserted_record_witness :
  get_hw_info_from_geo_id example_default (service_of_map example_map)
    (get_geo_id_hw (example_link 7 1 "hostA" 10 1)) =
  example_link 7 1 "hostA" 10 1.
Proof.
  apply geo_id_lookup_returns_inserted_record.
  - solve_NoDup.
  - simpl. right. left. reflexivity.
Defined.

(** C5: when several records of the input share a geo-id, construction
    still yields a service, and the geo-id index holds the one that comes
    last in the input: a record that no later record shares its geo-id
    with is the one stored and returned for that geo-id. *)
Theorem duplicate_geo_id_last_write_wins
    (dflt : HWInfo) (before : list HWInfo) (h : HWInfo) (after : list HWInfo) :
  (forall h', In h' after -> get_geo_id_hw h' <> get_geo_id_hw h) ->
  let svc := service_of_map (mkHardwareMap (before ++ h :: after)) in
  UIntMap.find (get_geo_id_hw h) (m_geo_id_to_info_map svc) = Some h /\
  get_hw_info_from_geo_id dflt svc (get_geo_id_hw h) = h.
Proof.
  intros Hafter svc.
  assert (Hl : last_with_geo_id (get_geo_id_hw h) (before ++ h :: after) = Some h).
  { rewrite last_with_geo_id_app. cbn [last_with_geo_id].
    rewrite (proj2 (last_with_geo_id_None _ _) Hafter), Z.eqb_refl. reflexivity. }
  split.
  - unfold svc. rewrite service_geo_find. exact Hl.
  - apply geo_lookup_last. exact Hl.
Qed.

Lemma duplicate_geo_id_last_write_wins_witness :
  let svc := service_of_map example_duplicates in
  UIntMap.find (get_geo_id_hw (example_link 7 1 "hostA" 10 1))
               (m_geo_id_to_info_map svc) = Some (example_link 7 1 "hostA" 10 1) /\
  get_hw_info_from_geo_id example_default svc
    (get_geo_id_hw (example_link 7 1 "hostA" 10 1)) = example_link 7 1 "hostA" 10 1.
Proof.
  apply (duplicate_geo_id_last_write_wins example_default
           [example_link 7 1 "hostA" 10 0] (example_link 7 1 "hostA" 10 1) []).
  simpl. intros h' [].
Defined.

(** ** Queries that find nothing *)

Lemma filter_none {A} (f : A -> bool) (l : list A) :
  (forall x, In x l -> f x = false) -> filter f l = [].
Proof.
  induction l as [| a t IH]; intros Hall; cbn [filter]; [reflexivity |].
  rewrite (Hall a (or_introl eq_refl)). apply IH.
  intros x Hx. apply Hall. right. exact Hx.
Qed.

Lemma get_dro_info_absent (svc : HardwareMapService) (host_name : string)
    (dro_card : Z) :
  ~ DROMap.In (host_name, dro_card) (m_dro_info_map svc) ->
  get_dro_info svc host_name dro_card =
    Throw (runtime_error
             ("HardwareMapService: Invalid DRO host/card pair " ++ host_name
              ++ "/" ++ decimal dro_card)%string).
Proof.
  intros Hnot. unfold get_dro_info.
  destruct (DROMap.find (host_name, dro_card) (m_dro_info_map svc)) eqn:Hf;
    [| reflexivity].
  exfalso. apply Hnot. apply DROMapF.in_find_iff. rewrite Hf. discriminate.
Qed.

(** C3: the three lookups differ in what they do when nothing is found.
    A geo-id that no input record has yields the default-valued record
    with [from_file = false]; a source id that no input record has yields
    the empty sequence; a (host, card) pair that is not in the DRO index
    (in particular one that no input record has) makes [get_dro_info]
    throw. *)
Theorem not_found_semantics (dflt : HWInfo) (map : HardwareMap) :
  let svc := service_of_map map in
  (forall geo_id : Z,
      (forall h, In h (link_infos map) -> get_geo_id_hw h <> geo_id) ->
      get_hw_info_from_geo_id dflt svc geo_id = set_from_file false dflt /\
      from_file (get_hw_info_from_geo_id dflt svc geo_id) = false) /\
  (forall source_id : Z,
      (forall h, In h (link_infos map) -> dro_source_id h <> source_id) ->
      get_hw_info_from_source_id svc source_id = []) /\
  (forall (host_name : string) (card_id : Z),
      ~ DROMap.In (host_name, card_id) (m_dro_info_map svc) ->
      exists e, get_dro_info svc host_name card_id = Throw e) /\
  (forall (host_name : string) (card_id : Z),
      (forall h, In h (link_infos map) ->
                 (dro_host h, dro_card h) <> (host_name, card_id)) ->
      exists e, get_dro_info svc host_name card_id = Throw e).
Proof.
  intros svc. split; [| split; [| split]].
  - intros geo_id Hnone.
    assert (Hd : get_hw_info_from_geo_id dflt svc geo_id = set_from_file false dflt).
    { unfold get_hw_info_from_geo_id, svc. rewrite service_geo_find.
      rewrite (proj2 (last_with_geo_id_None _ _) Hnone). reflexivity. }
    split; [exact Hd | rewrite Hd; reflexivity].
  - intros source_id Hnone. unfold svc. rewrite service_source_id.
    apply filter_none. intros h Hin.
    destruct (Z.eqb_spec (dro_source_id h) source_id) as [Heq | Hne];
      [exfalso; exact (Hnone h Hin Heq) | reflexivity].
  - intros host_name card Hnot. eexists. apply get_dro_info_absent. exact Hnot.
  - intros host_name card Hnone. eexists. apply get_dro_info_absent.
    rewrite DROMapF.in_find_iff. unfold svc. rewrite service_dro_find.
    rewrite filter_none; [intros Hc; apply Hc; reflexivity |].
    intros r Hr.
    destruct (key_eqb_spec (dro_host r, dro_card r) (host_name, card))
      as [Heq | Hne]; [exfalso | reflexivity].
    apply geo_records_In, last_with_geo_id_Some in Hr.
    exact (Hnone r (proj1 Hr) Heq).
Qed.

Ltac each_record H :=
  simpl in H;
  repeat match type of H with
         | _ \/ _ => destruct H as [H | H]
         | False => destruct H
         end;
  try subst.

Lemma not_found_semantics_witness :
  let svc := service_of_map example_map in
  (get_hw_info_from_geo_id example_default svc 0 = set_from_file false example_default /\
   from_file (get_hw_info_from_geo_id example_default svc 0) = false) /\
  get_hw_info_from_source_id svc 99 = [] /\
  (exists e, get_dro_info svc "hostC" 10 = Throw e) /\
  (exists e, get_dro_info svc "hostA" 11 = Throw e).
Proof.
  intros svc.
  destruct (not_found_semantics example_default example_map) as [H1 [H2 [H3 H4]]].
  split; [| split; [| split]].
  - apply H1. intros h Hin. each_record Hin; vm_compute; discriminate.
  - apply H2. intros h Hin. each_record Hin; vm_compute; discriminate.
  - apply H3. rewrite DROMapF.in_find_iff. vm_compute. intros Hc; apply Hc; reflexivity.
  - apply H4. intros h Hin. each_record Hin; vm_compute; discriminate.
Defined.

(** ** The DRO index *)

(** The DRO unit of a (host, card) pair that some record of the geo-id
    index has: its links are the records of that index with this pair. *)
Lemma get_dro_info_present (map : HardwareMap) (host_name : string) (card_id : Z)
    (h : HWInfo) :
  In h (geo_records (service_of_map map)) ->
  dro_host h = host_name -> dro_card h = card_id ->
  get_dro_info (service_of_map map) host_name card_id =
    Return (mkDROInfo host_name card_id
              (filter (fun hwi => key_eqb (dro_host hwi, dro_card hwi)
                                          (host_name, card_id))
                      (geo_records (service_of_map map)))).
Proof.
  intros Hin Hh Hc. unfold get_dro_info. rewrite service_dro_find.
  destruct (filter _ (geo_records (service_of_map map))) as [| r ls] eqn:Hf.
  - exfalso. assert (Hm : In h []); [| destruct Hm].
    rewrite <- Hf. apply filter_In. split; [exact Hin |].
    subst. destruct (key_eqb_spec (dro_host h, dro_card h) (dro_host h, dro_card h));
      congruence.
  - reflexivity.
Qed.

Lemma get_dro_info_links (map : HardwareMap) (host_name : string) (card_id : Z)
    (d : DROInfo) :
  get_dro_info (service_of_map map) host_name card_id = Return d ->
  links d = filter (fun hwi => key_eqb (dro_host hwi, dro_card hwi)
                                       (host_name, card_id))
                   (geo_records (service_of_map map)).
Proof.
  unfold get_dro_info. rewrite service_dro_find.
  destruct (filter _ (geo_records (service_of_map map))) as [| r ls];
    [discriminate |].
  intros [= <-]. reflexivity.
Qed.

(** C4: for a (host, card) pair that some record of the input has, and
    unique geo-ids across the input, [get_dro_info] returns the DRO unit
    of that pair, and its links are exactly the input records whose
    [dro_host] and [dro_card] equal the pair, each once and no others. *)
Theorem dro_info_links_are_the_matching_records
    (map : HardwareMap) (host_name : string) (card_id : Z) :
  NoDup (List.map get_geo_id_hw (link_infos map)) ->
  (exists h, In h (link_infos map) /\
             dro_host h = host_name /\ dro_card h = card_id) ->
  exists d,
    get_dro_info (service_of_map map) host_name card_id = Return d /\
    host d = host_name /\ card d = card_id /\
    Permutation (links d)
      (filter (fun h => key_eqb (dro_host h, dro_card h) (host_name, card_id))
              (link_infos map)) /\
    (forall r, In r (links d) <->
               In r (link_infos map) /\
               dro_host r = host_name /\ dro_card r = card_id).
Proof.
  intros Hnd [h [Hin [Hh Hc]]].
  apply (geo_records_unique_In map h Hnd) in Hin.
  eexists. split; [apply (get_dro_info_present map _ _ h Hin Hh Hc) |].
  cbn [host card links]. split; [reflexivity |]. split; [reflexivity |].
  assert (Hmem : forall r,
    In r (filter (fun hwi => key_eqb (dro_host hwi, dro_card hwi) (host_name, card_id))
                 (geo_records (service_of_map map))) <->
    In r (link_infos map) /\ dro_host r = host_name /\ dro_card r = card_id).
  { intros r. rewrite filter_In, (geo_records_unique_In map r Hnd).
    destruct (key_eqb_spec (dro_host r, dro_card r) (host_name, card_id))
      as [Heq | Hne].
    - injection Heq as Hh' Hc'. tauto.
    - split; [intros [_ Hf]; discriminate |].
      intros [_ [Hh' Hc']]. exfalso. apply Hne. congruence. }
  split; [| exact Hmem].
  apply NoDup_Permutation.
  - apply NoDup_filter, geo_records_NoDup.
  - apply NoDup_filter, (NoDup_map_inv get_geo_id_hw), Hnd.
  - intros r. rewrite Hmem, filter_In.
    destruct (key_eqb_spec (dro_host r, dro_card r) (host_name, card_id))
      as [Heq | Hne].
    + injection Heq as Hh' Hc'. tauto.
    + split; [| intros [_ Hf]; discriminate].
      intros [_ [Hh' Hc']]. exfalso. apply Hne. congruence.
Qed.

Lemma dro_info_links_are_the_matching_records_witness :
  exists d,
    get_dro_info (service_of_map example_map) "hostA" 10 = Return d /\
    host d = "hostA"%string /\ card d = 10 /\
    Permutation (links d)
      (filter (fun h => key_eqb (dro_host h, dro_card h) ("hostA"%string, 10))
              (link_infos example_map)) /\
    (forall r, In r (links d) <->
               In r (link_infos example_map) /\
               dro_host r = "hostA"%string /\ dro_card r = 10).
Proof.
  apply dro_info_links_are_the_matching_records.
  - solve_NoDup.
  - exists (example_link 7 2 "hostA" 10 0).
    simpl. split; [left; reflexivity | split; reflexivity].
Defined.

(** ** Every index against the geo-id index *)

(** C6, as the code has it: every record reachable through [get_dro_info]
    is returned unchanged by the geo-id lookup of its own geo-id; for the
    records reachable through [get_hw_info_from_source_id] this holds when
    the geo-ids are unique across the input. *)
Theorem indexed_records_reachable_by_geo_id (dflt : HWInfo) (map : HardwareMap) :
  let svc := service_of_map map in
  (forall (host_name : string) (card_id : Z) (d : DROInfo) (r : HWInfo),
      get_dro_info svc host_name card_id = Return d -> In r (links d) ->
      get_hw_info_from_geo_id dflt svc (get_geo_id_hw r) = r) /\
  (NoDup (List.map get_geo_id_hw (link_infos map)) ->
   forall (source_id : Z) (r : HWInfo),
      In r (get_hw_info_from_source_id svc source_id) ->
      get_hw_info_from_geo_id dflt svc (get_geo_id_hw r) = r).
Proof.
  intros svc. split.
  - intros host_name card_id d r Hd Hr.
    rewrite (get_dro_info_links map host_name card_id d Hd) in Hr.
    apply filter_In in Hr. destruct Hr as [Hr _].
    apply geo_lookup_last, geo_records_In. exact Hr.
  - intros Hnd source_id r Hr. unfold svc in Hr.
    rewrite service_source_id in Hr. apply filter_In in Hr.
    apply geo_lookup_last, last_with_geo_id_unique; [exact Hnd | apply Hr].
Qed.

Lemma indexed_records_reachable_by_geo_id_witness :
  let svc := service_of_map example_map in
  get_hw_info_from_geo_id example_default svc
    (get_geo_id_hw (example_link 7 2 "hostA" 10 0)) = example_link 7 2 "hostA" 10 0 /\
  (forall (source_id : Z) (r : HWInfo),
      In r (get_hw_info_from_source_id svc source_id) ->
      get_hw_info_from_geo_id example_default svc (get_geo_id_hw r) = r).
Proof.
  intros svc.
  destruct (indexed_records_reachable_by_geo_id example_default example_map)
    as [Hdro Hsid].
  split.
  - apply (Hdro "hostA"%string 10
             (mkDROInfo "hostA" 10 [example_link 7 1 "hostA" 10 1;
                                    example_link 7 2 "hostA" 10 0])).
    + reflexivity.
    + simpl. right. left. reflexivity.
  - apply Hsid. solve_NoDup.
Defined.

(** C6 as stated fails: of two different records that share a geo-id,
    both are in the bucket of their source id, and the geo-id lookup
    returns the second for the geo-id of the first. *)
Lemma source_id_record_not_in_geo_index :
  let svc := service_of_map example_duplicates in
  let r := example_link 7 1 "hostA" 10 0 in
  In r (get_hw_info_from_source_id svc 7) /\
  get_hw_info_from_geo_id example_default svc (get_geo_id_hw r) <> r.
Proof.
  split.
  - vm_compute. left. reflexivity.
  - vm_compute. discriminate.
Qed.

(** ** The exported hardware map *)

(** C9: [get_hardware_map] returns the records of the geo-id index in its
    iteration order, which is ascending by geo-id and need not be the
    input order; the result has one record for each distinct geo-id of the
    input (the last input record with that geo-id). *)
Theorem get_hardware_map_is_geo_index_in_ascending_order :
  (forall svc : HardwareMapService,
      link_infos (get_hardware_map svc) =
        List.map snd (UIntMap.elements (m_geo_id_to_info_map svc))) /\
  (forall map : HardwareMap,
      let out := link_infos (get_hardware_map (service_of_map map)) in
      StronglySorted Z.lt (List.map get_geo_id_hw out) /\
      NoDup (List.map get_geo_id_hw out) /\
      (forall g, In g (List.map get_geo_id_hw out) <->
                 In g (List.map get_geo_id_hw (link_infos map))) /\
      (forall r, In r out <->
                 last_with_geo_id (get_geo_id_hw r) (link_infos map) = Some r)) /\
  (link_infos (get_hardware_map (service_of_map example_map)) =
     [example_link 7 1 "hostA" 10 1;
      example_link 7 2 "hostA" 10 0;
      example_link 8 3 "hostB" 10 0] /\
   link_infos (get_hardware_map (service_of_map example_map)) <>
     link_infos example_map).
Proof.
  split; [exact get_hardware_map_records |].
  split; [| split; [reflexivity | vm_compute; discriminate]].
  intros map out. unfold out. rewrite get_hardware_map_records.
  split; [apply geo_records_sorted |].
  split; [apply StronglySorted_lt_NoDup, geo_records_sorted |].
  split; [| intros r; apply geo_records_In].
  intros g. rewrite !in_map_iff. split.
  - intros [r [Hg Hr]]. exists r. split; [exact Hg |].
    apply geo_records_In, last_with_geo_id_Some in Hr. apply Hr.
  - intros [h [Hg Hh]].
    destruct (last_with_geo_id g (link_infos map)) as [r |] eqn:Hl.
    + destruct (last_with_geo_id_Some _ _ _ Hl) as [_ Hgr].
      exists r. split; [exact Hgr |]. apply geo_records_In.
      rewrite Hgr. exact Hl.
    + exfalso. exact (proj1 (last_with_geo_id_None _ _) Hl h Hh Hg).
Qed.

(** ** The map-file reader *)

(** [getlines] is the sequence of results of successive [getline] calls. *)
Lemma getlines_getline (inFile : string) :
  getlines inFile =
    match getline inFile with
    | None => []
    | Some (line, rest) => line :: getlines rest
    end.
Proof.
  induction inFile as [| c rest IH]; [reflexivity |].
  cbn [getlines getline getline_chars].
  destruct (Ascii.eqb c newline); [reflexivity |].
  rewrite IH. destruct rest as [| c' rest']; [reflexivity |].
  cbn [getline]. destruct (getline_chars (String c' rest')) as [line rest''].
  reflexivity.
Qed.

Lemma size_append (a b : string) : size (a ++ b) = size a + size b.
Proof.
  unfold size. induction a as [| c a IH]; [reflexivity |].
  cbn [append String.length]. lia.
Qed.

Lemma size_nonneg (s : string) : 0 <= size s.
Proof. unfold size. lia. Qed.

Lemma find_first_not_of_from_all_in (s chars : string) (pos : Z) :
  all_in chars s = true -> find_first_not_of_from s chars pos = npos.
Proof.
  revert pos. induction s as [| c s IH]; intros pos; cbn [all_in find_first_not_of_from];
    [reflexivity |].
  intros [Hc Hs]%andb_prop. rewrite Hc. apply IH. exact Hs.
Qed.

Lemma find_first_not_of_from_prefix (ws chars : string) (c : ascii) (rest : string)
    (pos : Z) :
  all_in chars ws = true -> contains chars c = false ->
  find_first_not_of_from (ws ++ String c rest) chars pos = pos + size ws.
Proof.
  revert pos. induction ws as [| w ws IH]; intros pos Hws Hc;
    cbn [append find_first_not_of_from all_in] in *.
  - rewrite Hc. unfold size; cbn. lia.
  - apply andb_prop in Hws. destruct Hws as [Hw Hws]. rewrite Hw.
    rewrite IH by assumption. unfold size; cbn [String.length]. lia.
Qed.

Lemma get_after_prefix (ws : string) (c : ascii) (rest : string) :
  String.get (String.length ws) (ws ++ String c rest) = Some c.
Proof. induction ws as [| w ws IH]; [reflexivity | exact IH]. Qed.

Lemma string_at_after_prefix (ws : string) (c : ascii) (rest : string) :
  string_at (ws ++ String c rest) (size ws) = Some c.
Proof.
  unfold string_at. rewrite size_append.
  assert (Hpos : 0 < size (String c rest)) by (unfold size; cbn [String.length]; lia).
  pose proof (size_nonneg ws) as Hws.
  destruct (Z.leb_spec 0 (size ws)); [| lia].
  destruct (Z.ltb_spec (size ws) (size ws + size (String c rest))); [| lia].
  cbn [andb]. unfold size. rewrite Nat2Z.id. apply get_after_prefix.
Qed.

Lemma string_at_npos (s : string) : size s < npos -> string_at s npos = None.
Proof.
  intros Hs. unfold string_at.
  destruct (Z.ltb_spec npos (size s)); [lia |]. rewrite andb_false_r.
  destruct (Z.eqb_spec npos (size s)); [lia | reflexivity].
Qed.

(** Empty lines are skipped. *)
Lemma read_line_empty (dflt : HWInfo) (link_infos : list HWInfo) :
  read_line dflt link_infos EmptyString = Return link_infos.
Proof. reflexivity. Qed.

(** Lines whose first character after spaces and tabs is [#] are skipped. *)
Lemma read_line_comment (dflt : HWInfo) (link_infos : list HWInfo)
    (ws rest : string) :
  all_in blanks ws = true ->
  read_line dflt link_infos (ws ++ String "#" rest) = Return link_infos.
Proof.
  intros Hws. unfold read_line.
  destruct (Z.eqb_spec (size (ws ++ String "#" rest)) 0); [reflexivity |].
  change (String " " (String "009" EmptyString)) with blanks.
  unfold find_first_not_of.
  rewrite find_first_not_of_from_prefix by (assumption || reflexivity).
  rewrite Z.add_0_l, string_at_after_prefix. reflexivity.
Qed.

(** On a line that has a character other than space and tab, the indexed
    character is that first one, within the line. *)
Lemma read_line_index_in_bounds (ws rest : string) (c : ascii) :
  all_in blanks ws = true -> contains blanks c = false ->
  let line := (ws ++ String c rest)%string in
  0 <= find_first_not_of line blanks < size line /\
  string_at line (find_first_not_of line blanks) = Some c.
Proof.
  intros Hws Hc line. unfold line, find_first_not_of.
  rewrite find_first_not_of_from_prefix by assumption.
  rewrite Z.add_0_l, string_at_after_prefix, size_append.
  pose proof (size_nonneg ws).
  assert (0 < size (String c rest)) by (unfold size; cbn [String.length]; lia).
  split; [lia | reflexivity].
Qed.

(** On a non-empty line of spaces and tabs only, the index is [npos] and
    the access is outside the line: the line is not skipped. *)
Lemma read_line_blanks_only (dflt : HWInfo) (link_infos : list HWInfo)
    (line : string) :
  line <> EmptyString -> all_in blanks line = true -> size line < npos ->
  find_first_not_of line blanks = npos /\
  read_line dflt link_infos line = OutOfBounds.
Proof.
  intros Hne Hall Hsize.
  assert (Hf : find_first_not_of line blanks = npos)
    by (apply find_first_not_of_from_all_in; exact Hall).
  split; [exact Hf |]. unfold read_line.
  destruct (Z.eqb_spec (size line) 0) as [Hz | _].
  - destruct line; [congruence | unfold size in Hz; cbn [String.length] in Hz; lia].
  - change (String " " (String "009" EmptyString)) with blanks.
    rewrite Hf, string_at_npos by exact Hsize. reflexivity.
Qed.

(** C7: a file with the lines [1 2 3 4 5 hostA 10 0 0], [# comment] and a
    blank line yields a service with exactly one record, which has
    [from_file = true], source id 1, host [hostA], card 10, and the geo-id
    [(2<<48)|(3<<32)|(4<<16)|5]. *)
Theorem parsing_scenario (dflt : HWInfo) (filename : string) :
  let h := mkHWInfo 1 2 3 4 5 "hostA" 10 0 0 true in
  getlines scenario_file =
    ["1 2 3 4 5 hostA 10 0 0"%string; "# comment"%string; EmptyString] /\
  read_hardware_map dflt scenario_file = Return (mkHardwareMap [h]) /\
  (exists svc,
      service_of_file dflt (fun _ => Some scenario_file) filename = Return svc /\
      link_infos (get_hardware_map svc) = [h] /\
      get_hw_info_from_geo_id dflt svc (get_geo_id_hw h) = h) /\
  from_file h = true /\ dro_source_id h = 1 /\
  dro_host h = "hostA"%string /\ dro_card h = 10 /\
  get_geo_id_hw h =
    Z.lor (Z.lor (Z.lor (Z.shiftl 2 48) (Z.shiftl 3 32)) (Z.shiftl 4 16)) 5.
Proof.
  intros h.
  assert (Hread : read_hardware_map dflt scenario_file = Return (mkHardwareMap [h]))
    by (vm_compute; reflexivity).
  split; [vm_compute; reflexivity |]. split; [exact Hread |].
  split; [| repeat split; vm_compute; reflexivity].
  eexists. split.
  - unfold service_of_file. rewrite Hread. reflexivity.
  - split; vm_compute; reflexivity.
Qed.

(** C8, at a line of a space and a tab: the index given by
    [find_first_not_of] is [npos], beyond the two characters of the line,
    so the access is outside the line and the line is not skipped. *)
Theorem whitespace_only_line_is_indexed_out_of_bounds
    (dflt : HWInfo) (link_infos : list HWInfo) :
  let line := String " " (String "009" EmptyString) in
  find_first_not_of line blanks = npos /\
  size line < npos /\
  string_at line npos = None /\
  read_line dflt link_infos line = OutOfBounds /\
  read_hardware_map dflt (line ++ String newline EmptyString) = OutOfBounds.
Proof.
  intros line. repeat split; vm_compute; reflexivity.
Qed.

(** ** The channel map adapter *)

(** C10: absences are answered by values.  When the lookup by crate,
    slot, link and channel reports an invalid record the offline channel
    is [-1] converted to [uint], that is [2^32 - 1]; when the lookup by
    offline channel reports an invalid record the plane is [9999] and the
    coordinates are absent. *)
Theorem adapter_absences_are_sentinels (self : PD2HDChannelMap.t) :
  (forall crate slot link wibframechan : Z,
      dune.valid (dune.GetChanInfoFromWIBElements
                    (PD2HDChannelMap.m_channel_map self)
                    crate slot link wibframechan) = false ->
      PD2HDChannelMap.get_offline_channel_from_crate_slot_fiber_chan
        self crate slot link wibframechan = 2 ^ 32 - 1) /\
  (forall offchannel : Z,
      dune.valid (dune.GetChanInfoFromOfflChan
                    (PD2HDChannelMap.m_channel_map self) offchannel) = false ->
      PD2HDChannelMap.get_plane_from_offline_channel self offchannel = 9999 /\
      PD2HDChannelMap.get_crate_slot_fiber_chan_from_offline_channel
        self offchannel = None).
Proof.
  split.
  - intros crate slot link wibframechan Hinvalid.
    unfold PD2HDChannelMap.get_offline_channel_from_crate_slot_fiber_chan.
    rewrite Hinvalid. reflexivity.
  - intros offchannel Hinvalid.
    unfold PD2HDChannelMap.get_plane_from_offline_channel,
      PD2HDChannelMap.get_crate_slot_fiber_chan_from_offline_channel.
    rewrite Hinvalid. split; reflexivity.
Qed.

Lemma adapter_absences_are_sentinels_witness :
  PD2HDChannelMap.get_offline_channel_from_crate_slot_fiber_chan
    example_channel_map 9 9 9 9 = 4294967295 /\
  PD2HDChannelMap.get_plane_from_offline_channel example_channel_map 5 = 9999 /\
  PD2HDChannelMap.get_crate_slot_fiber_chan_from_offline_channel
    example_channel_map 5 = None.
Proof.
  destruct (adapter_absences_are_sentinels example_channel_map) as [Hchan Hoff].
  split.
  - apply Hchan. reflexivity.
  - apply Hoff. reflexivity.
Defined.

(** * Further properties of the code *)

(** ** The geo-id as a number *)

Lemma lor_disjoint_add (a b k : Z) :
  0 <= k -> 0 <= b < 2 ^ k -> Z.lor (a * 2 ^ k) b = a * 2 ^ k + b.
Proof.
  intros Hk Hb.
  assert (Hland : Z.land (a * 2 ^ k) b = 0).
  { apply Z.bits_inj'; intros n Hn. rewrite Z.land_spec, Z.bits_0.
    destruct (Z.ltb_spec n k) as [Hlt | Hge].
    - rewrite Z.mul_pow2_bits_low by lia. reflexivity.
    - replace b with (b mod 2 ^ k) by (apply Z.mod_small; lia).
      rewrite Z.mod_pow2_bits_high by lia. apply andb_false_r. }
  rewrite <- Z.lxor_lor by exact Hland.
  symmetry. apply Z.add_nocarry_lxor. exact Hland.
Qed.

Lemma get_geo_id_sum (l s c i : Z) :
  is_uint16 l -> is_uint16 s -> is_uint16 c -> is_uint16 i ->
  get_geo_id l s c i = l * 2 ^ 48 + s * 2 ^ 32 + c * 2 ^ 16 + i.
Proof.
  unfold is_uint16. intros Hl Hs Hc Hi. unfold get_geo_id, shl64, uint64_t.
  rewrite !Z.shiftl_mul_pow2 by lia.
  rewrite !(Z.mod_small l), !(Z.mod_small s), !(Z.mod_small c), !(Z.mod_small i) by lia.
  rewrite !Z.mod_small by lia.
  rewrite (lor_disjoint_add l (s * 2 ^ 32) 48) by lia.
  replace (l * 2 ^ 48 + s * 2 ^ 32) with ((l * 2 ^ 16 + s) * 2 ^ 32) by lia.
  rewrite (lor_disjoint_add (l * 2 ^ 16 + s) (c * 2 ^ 16) 32) by lia.
  replace ((l * 2 ^ 16 + s) * 2 ^ 32 + c * 2 ^ 16)
    with (((l * 2 ^ 16 + s) * 2 ^ 16 + c) * 2 ^ 16) by lia.
  rewrite (lor_disjoint_add _ i 16) by lia. lia.
Qed.

(** X1: for 16-bit fields the packed geo-id is the number
    [det_link * 2^48 + det_slot * 2^32 + det_crate * 2^16 + det_id]; the
    fields do not overlap, and the value fits 64 bits. *)
Theorem get_geo_id_is_positional (l s c i : Z) :
  is_uint16 l -> is_uint16 s -> is_uint16 c -> is_uint16 i ->
  get_geo_id l s c i = l * 2 ^ 48 + s * 2 ^ 32 + c * 2 ^ 16 + i /\
  is_uint64 (get_geo_id l s c i).
Proof.
  intros Hl Hs Hc Hi. split.
  - apply get_geo_id_sum; assumption.
  - apply get_geo_id_range.
Qed.

Lemma get_geo_id_is_positional_witness :
  get_geo_id 2 3 4 5 = 2 * 2 ^ 48 + 3 * 2 ^ 32 + 4 * 2 ^ 16 + 5 /\
  is_uint64 (get_geo_id 2 3 4 5).
Proof.
  apply get_geo_id_is_positional; unfold is_uint16; lia.
Defined.

(** X2: two quadruples of 16-bit fields have the same geo-id only when
    they are the same quadruple. *)
Theorem get_geo_id_injective (l s c i l' s' c' i' : Z) :
  is_uint16 l -> is_uint16 s -> is_uint16 c -> is_uint16 i ->
  is_uint16 l' -> is_uint16 s' -> is_uint16 c' -> is_uint16 i' ->
  get_geo_id l s c i = get_geo_id l' s' c' i' ->
  l = l' /\ s = s' /\ c = c' /\ i = i'.
Proof.
  intros Hl Hs Hc Hi Hl' Hs' Hc' Hi' Heq.
  rewrite !get_geo_id_sum in Heq by assumption.
  unfold is_uint16 in *. lia.
Qed.

Lemma get_geo_id_injective_witness :
  2 = 2 /\ 3 = 3 /\ 4 = 4 /\ 5 = 5.
Proof.
  apply (get_geo_id_injective 2 3 4 5 2 3 4 5); unfold is_uint16; lia.
Defined.

(** X3: geo-ids compare as their fields compare lexicographically, link
    first, then slot, crate and id. *)
Theorem get_geo_id_order_is_lexicographic (l s c i l' s' c' i' : Z) :
  is_uint16 l -> is_uint16 s -> is_uint16 c -> is_uint16 i ->
  is_uint16 l' -> is_uint16 s' -> is_uint16 c' -> is_uint16 i' ->
  (get_geo_id l s c i < get_geo_id l' s' c' i' <->
   l < l' \/
   (l = l' /\ (s < s' \/
               (s = s' /\ (c < c' \/ (c = c' /\ i < i')))))).
Proof.
  intros Hl Hs Hc Hi Hl' Hs' Hc' Hi'.
  rewrite !get_geo_id_sum by assumption.
  unfold is_uint16 in *. lia.
Qed.

Lemma get_geo_id_order_is_lexicographic_witness :
  get_geo_id 1 65535 65535 65535 < get_geo_id 2 0 0 0.
Proof.
  apply get_geo_id_order_is_lexicographic; unfold is_uint16; lia.
Defined.

(** X4: whatever the geo-id, the four parsed fields are 16-bit values,
    the consecutive 16-bit digits of the geo-id from bit 48 down. *)
Theorem parse_geo_id_fields (geo_id : Z) :
  let g := parse_geo_id geo_id in
  geo_det_link g = (geo_id / 2 ^ 48) mod 2 ^ 16 /\
  geo_det_slot g = (geo_id / 2 ^ 32) mod 2 ^ 16 /\
  geo_det_crate g = (geo_id / 2 ^ 16) mod 2 ^ 16 /\
  geo_det_id g = geo_id mod 2 ^ 16 /\
  is_uint16 (geo_det_link g) /\ is_uint16 (geo_det_slot g) /\
  is_uint16 (geo_det_crate g) /\ is_uint16 (geo_det_id g).
Proof.
  intros g. unfold g, parse_geo_id.
  cbn [geo_det_link geo_det_slot geo_det_crate geo_det_id].
  rewrite !land_ffff. unfold uint16_t, is_uint16.
  rewrite !Z.mod_mod by lia. rewrite !Z.shiftr_div_pow2 by lia.
  repeat split; try reflexivity; apply Z.mod_pos_bound; lia.
Qed.

(** ** The source-id index *)

(** X5: [get_hw_info_from_source_id] returns the input records that have
    the source id, all of them (also those that share a geo-id) and in
    input order; so every input record is in the bucket of its source id. *)
Theorem source_id_bucket_is_input_in_order (map : HardwareMap) :
  let svc := service_of_map map in
  (forall source_id : Z,
      get_hw_info_from_source_id svc source_id =
        filter (fun h => dro_source_id h =? source_id) (link_infos map)) /\
  (forall h : HWInfo,
      In h (link_infos map) ->
      In h (get_hw_info_from_source_id svc (dro_source_id h))).
Proof.
  intros svc. split.
  - intros source_id. apply service_source_id.
  - intros h Hin. unfold svc. rewrite service_source_id.
    apply filter_In. split; [exact Hin | apply Z.eqb_refl].
Qed.

(** ** The DRO index, whatever the input *)

Lemma StronglySorted_map_filter {A} (R : Z -> Z -> Prop) (g : A -> Z)
    (f : A -> bool) (l : list A) :
  StronglySorted R (List.map g l) -> StronglySorted R (List.map g (filter f l)).
Proof.
  induction l as [| a t IH]; cbn [List.map filter]; intros Hs; [constructor |].
  apply StronglySorted_inv in Hs. destruct Hs as [Ht Ha].
  destruct (f a); cbn [List.map]; [| exact (IH Ht)].
  constructor; [exact (IH Ht) |].
  rewrite Forall_forall in *. intros x Hx. apply Ha.
  rewrite in_map_iff in *. destruct Hx as [y [Hy Hin]].
  exists y. split; [exact Hy |]. apply filter_In in Hin. apply Hin.
Qed.

(** X6: a DRO unit returned by [get_dro_info] carries the host and card
    asked for and at least one link; each of its links is an input record
    with that host and card; and the links are in strictly ascending order
    of geo-id. *)
Theorem dro_info_is_well_formed
    (map : HardwareMap) (host_name : string) (card_id : Z) (d : DROInfo) :
  get_dro_info (service_of_map map) host_name card_id = Return d ->
  host d = host_name /\ card d = card_id /\ links d <> [] /\
  (forall r, In r (links d) ->
             In r (link_infos map) /\
             dro_host r = host_name /\ dro_card r = card_id) /\
  StronglySorted Z.lt (List.map get_geo_id_hw (links d)).
Proof.
  intros Hd. unfold get_dro_info in Hd. rewrite service_dro_find in Hd.
  destruct (filter _ (geo_records (service_of_map map))) as [| r0 ls] eqn:Hf;
    [discriminate |].
  injection Hd as <-. cbn [host card links fst snd].
  split; [reflexivity |]. split; [reflexivity |]. split; [discriminate |].
  rewrite <- Hf. split.
  - intros r Hr. apply filter_In in Hr. destruct Hr as [Hr Hk].
    apply geo_records_In, last_with_geo_id_Some in Hr.
    destruct (key_eqb_spec (dro_host r, dro_card r) (host_name, card_id))
      as [Heq | Hne]; [| discriminate].
    injection Heq as Hh Hc. split; [apply Hr | split; assumption].
  - apply StronglySorted_map_filter, geo_records_sorted.
Qed.

Lemma dro_info_is_well_formed_witness :
  let d := mkDROInfo "hostA" 10 [example_link 7 1 "hostA" 10 1;
                                 example_link 7 2 "hostA" 10 0] in
  host d = "hostA"%string /\ card d = 10 /\ links d <> [] /\
  (forall r, In r (links d) ->
             In r (link_infos example_map) /\
             dro_host r = "hostA"%string /\ dro_card r = 10) /\
  StronglySorted Z.lt (List.map get_geo_id_hw (links d)).
Proof.
  apply (dro_info_is_well_formed example_map). reflexivity.
Defined.

(** X7: a record that a later record of the input shares its geo-id with
    is overwritten in the geo-id index, from which the DRO index is built.
    If it is the only input record of its (host, card) pair, that pair is
    unknown to [get_dro_info], which throws, although the record is still
    returned for its source id. *)
Theorem overwritten_link_leaves_no_dro
    (before : list HWInfo) (h : HWInfo) (after : list HWInfo) :
  (forall x, In x (before ++ after) ->
             (dro_host x, dro_card x) <> (dro_host h, dro_card h)) ->
  (exists h', In h' after /\ get_geo_id_hw h' = get_geo_id_hw h) ->
  let svc := service_of_map (mkHardwareMap (before ++ h :: after)) in
  (exists e, get_dro_info svc (dro_host h) (dro_card h) = Throw e) /\
  In h (get_hw_info_from_source_id svc (dro_source_id h)).
Proof.
  intros Hothers [h' [Hin' Hg']] svc. split.
  - eexists. apply get_dro_info_absent.
    rewrite DROMapF.in_find_iff. unfold svc. rewrite service_dro_find.
    rewrite filter_none; [intros Hc; apply Hc; reflexivity |].
    intros r Hr.
    destruct (key_eqb_spec (dro_host r, dro_card r) (dro_host h, dro_card h))
      as [Heq | Hne]; [exfalso | reflexivity].
    apply geo_records_In in Hr. cbn [link_infos] in Hr.
    destruct (last_with_geo_id_Some _ _ _ Hr) as [Hrin _].
    apply in_app_or in Hrin. destruct Hrin as [Hb | [<- | Ha]].
    + apply (Hothers r); [apply in_or_app; left; exact Hb | exact Heq].
    + rewrite last_with_geo_id_app in Hr. cbn [last_with_geo_id] in Hr.
      destruct (last_with_geo_id (get_geo_id_hw h) after) as [x |] eqn:Hlast.
      * injection Hr as ->.
        destruct (last_with_geo_id_Some _ _ _ Hlast) as [Hxin _].
        apply (Hothers h); [apply in_or_app; right; exact Hxin | reflexivity].
      * exact (proj1 (last_with_geo_id_None _ _) Hlast h' Hin' Hg').
    + apply (Hothers r); [apply in_or_app; right; exact Ha | exact Heq].
  - unfold svc. rewrite service_source_id. cbn [link_infos].
    apply filter_In. split; [apply in_or_app; right; left; reflexivity |].
    apply Z.eqb_refl.
Qed.

Lemma overwritten_link_leaves_no_dro_witness :
  let svc := service_of_map
               (mkHardwareMap [example_link 7 1 "hostA" 10 0;
                               example_link 7 1 "hostB" 10 0]) in
  (exists e, get_dro_info svc "hostA" 10 = Throw e) /\
  In (example_link 7 1 "hostA" 10 0) (get_hw_info_from_source_id svc 7).
Proof.
  apply (overwritten_link_leaves_no_dro [] (example_link 7 1 "hostA" 10 0)
           [example_link 7 1 "hostB" 10 0]).
  - intros x Hx. each_record Hx. vm_compute. discriminate.
  - exists (example_link 7 1 "hostB" 10 0). split; [left |]; reflexivity.
Defined.

(** ** All DRO units *)

Lemma dro_elements_In {A} (m : DROMap.t A) (k : string * Z) (v : A) :
  In (k, v) (DROMap.elements m) <-> DROMap.find k m = Some v.
Proof.
  rewrite <- DROMapF.find_mapsto_iff, DROMapF.elements_mapsto_iff.
  rewrite InA_alt. split.
  - intros H. exists (k, v). split; [repeat split |]; auto.
  - intros [[[hn cd] v'] [[[Hh Hc] Hv] Hin]]. destruct k as [hn' cd'].
    cbn in Hh, Hc, Hv. subst. exact Hin.
Qed.

Lemma get_all_dro_info_In (svc : HardwareMapService) (d : DROInfo) :
  In d (get_all_dro_info svc) <->
  exists key, DROMap.find key (m_dro_info_map svc) = Some d.
Proof.
  unfold get_all_dro_info. rewrite fold_left_push. cbn [app].
  rewrite in_map_iff. split.
  - intros [[k d'] [Hd Hin]]. cbn [snd] in Hd. subst d'.
    exists k. apply dro_elements_In. exact Hin.
  - intros [k Hk]. exists (k, d). split; [reflexivity |].
    apply dro_elements_In. exact Hk.
Qed.

Lemma service_dro_find_key (map : HardwareMap) (key : string * Z) (d : DROInfo) :
  DROMap.find key (m_dro_info_map (service_of_map map)) = Some d ->
  key = (host d, card d).
Proof.
  rewrite service_dro_find.
  destruct (filter _ (geo_records (service_of_map map))); [discriminate |].
  intros [= <-]. destruct key; reflexivity.
Qed.

(** X8: [get_all_dro_info] lists exactly the units that [get_dro_info]
    returns, one for each (host, card) pair, and they partition the
    exported hardware map: every record of [get_hardware_map] is a link of
    the unit of its own host and card, and of no other listed unit. *)
Theorem all_dro_info_partitions_the_map (map : HardwareMap) :
  let svc := service_of_map map in
  (forall d, In d (get_all_dro_info svc) <->
             get_dro_info svc (host d) (card d) = Return d) /\
  (forall d d', In d (get_all_dro_info svc) -> In d' (get_all_dro_info svc) ->
                host d = host d' -> card d = card d' -> d = d') /\
  (forall r, In r (link_infos (get_hardware_map svc)) ->
             exists d, In d (get_all_dro_info svc) /\ In r (links d) /\
                       host d = dro_host r /\ card d = dro_card r) /\
  (forall d r, In d (get_all_dro_info svc) -> In r (links d) ->
               In r (link_infos (get_hardware_map svc)) /\
               host d = dro_host r /\ card d = dro_card r).
Proof.
  intros svc.
  assert (Hiff : forall d, In d (get_all_dro_info svc) <->
                           get_dro_info svc (host d) (card d) = Return d).
  { intros d. rewrite get_all_dro_info_In. unfold get_dro_info. cbv zeta. split.
    - intros [key Hk]. pose proof (service_dro_find_key map key d Hk) as ->.
      fold svc in Hk. rewrite Hk. reflexivity.
    - intros Hd. exists (host d, card d).
      destruct (DROMap.find (host d, card d) (m_dro_info_map svc));
        [injection Hd as ->; reflexivity | discriminate]. }
  split; [exact Hiff |]. split; [| split].
  - intros d d' Hd Hd' Hh Hc. apply Hiff in Hd, Hd'.
    rewrite Hh, Hc, Hd' in Hd. injection Hd as ->. reflexivity.
  - intros r Hr. rewrite get_hardware_map_records in Hr.
    pose proof (get_dro_info_present map (dro_host r) (dro_card r) r Hr
                  eq_refl eq_refl) as Hd.
    match type of Hd with _ = Return ?x => exists x end.
    split; [apply Hiff; exact Hd |].
    cbn [host card links]. split; [| split; reflexivity].
    apply filter_In. split; [exact Hr |].
    destruct (key_eqb_spec (dro_host r, dro_card r) (dro_host r, dro_card r));
      congruence.
  - intros d r Hd Hr. apply Hiff in Hd.
    rewrite (get_dro_info_links map _ _ d Hd) in Hr.
    apply filter_In in Hr. destruct Hr as [Hr Hk].
    rewrite get_hardware_map_records. split; [exact Hr |].
    destruct (key_eqb_spec (dro_host r, dro_card r) (host d, card d))
      as [Heq | Hne]; [| discriminate].
    injection Heq as Hh Hc. split; congruence.
Qed.

(** ** Exporting and rebuilding *)

Module UIntMapO := FMapFacts.OrdProperties UIntMap.

Lemma eqlistA_eq_key_elt {A} (l l' : list (Z * A)) :
  eqlistA (@UIntMap.eq_key_elt A) l l' -> l = l'.
Proof.
  induction 1 as [| [k v] [k' v'] l l' [Hk Hv] _ IH]; [reflexivity |].
  cbn in Hk, Hv. subst. reflexivity.
Qed.

Lemma uint_elements_ext {A} (m m' : UIntMap.t A) :
  (forall k, UIntMap.find k m = UIntMap.find k m') ->
  UIntMap.elements m = UIntMap.elements m'.
Proof.
  intros Heq. apply eqlistA_eq_key_elt, UIntMapO.elements_Equal_eqlistA. exact Heq.
Qed.

(** Looking a geo-id up in the exported records gives what the index holds. *)
Lemma last_with_geo_id_geo_records (map : HardwareMap) (g : Z) :
  last_with_geo_id g (geo_records (service_of_map map)) =
    last_with_geo_id g (link_infos map).
Proof.
  destruct (last_with_geo_id g (link_infos map)) as [r |] eqn:Hl.
  - destruct (last_with_geo_id_Some _ _ _ Hl) as [_ Hg]. subst g.
    apply last_with_geo_id_unique.
    + apply StronglySorted_lt_NoDup, geo_records_sorted.
    + apply geo_records_In. exact Hl.
  - apply last_with_geo_id_None. intros h Hh Hg.
    apply geo_records_In in Hh. rewrite Hg, Hl in Hh. discriminate.
Qed.

Lemma rebuilt_geo_records (map : HardwareMap) :
  geo_records (service_of_map (get_hardware_map (service_of_map map))) =
    geo_records (service_of_map map).
Proof.
  unfold geo_records. f_equal. apply uint_elements_ext. intros k.
  rewrite !service_geo_find, get_hardware_map_records.
  apply last_with_geo_id_geo_records.
Qed.

Lemma get_hardware_map_eq (svc : HardwareMapService) :
  get_hardware_map svc = mkHardwareMap (geo_records svc).
Proof.
  unfold get_hardware_map, geo_records. rewrite fold_left_push. reflexivity.
Qed.

(** X9: a service rebuilt from the hardware map that a service exports
    answers as the first one: it exports the same hardware map, and the
    geo-id and (host, card) lookups agree; its source-id buckets hold the
    exported records, in the exported order. *)
Theorem rebuild_from_exported_map (dflt : HWInfo) (map : HardwareMap) :
  let svc := service_of_map map in
  let svc' := service_of_map (get_hardware_map svc) in
  get_hardware_map svc' = get_hardware_map svc /\
  (forall g, get_hw_info_from_geo_id dflt svc' g = get_hw_info_from_geo_id dflt svc g) /\
  (forall host_name card_id,
      get_dro_info svc' host_name card_id = get_dro_info svc host_name card_id) /\
  (forall source_id,
      get_hw_info_from_source_id svc' source_id =
        filter (fun h => dro_source_id h =? source_id)
               (link_infos (get_hardware_map svc))).
Proof.
  intros svc svc'. split; [| split; [| split]].
  - rewrite (get_hardware_map_eq svc'), (get_hardware_map_eq svc).
    f_equal. apply rebuilt_geo_records.
  - intros g. unfold get_hw_info_from_geo_id, svc', svc.
    rewrite !service_geo_find, get_hardware_map_records.
    rewrite last_with_geo_id_geo_records. reflexivity.
  - intros host_name card_id. unfold get_dro_info, svc', svc.
    rewrite !service_dro_find, rebuilt_geo_records. reflexivity.
  - intros source_id. apply service_source_id.
Qed.

(** X10: with unique geo-ids across the input, the exported hardware map
    is a rearrangement of the input: the same records, each once. *)
Theorem exported_map_is_permutation_of_input (map : HardwareMap) :
  NoDup (List.map get_geo_id_hw (link_infos map)) ->
  Permutation (link_infos (get_hardware_map (service_of_map map)))
              (link_infos map).
Proof.
  intros Hnd. rewrite get_hardware_map_records.
  apply NoDup_Permutation.
  - apply geo_records_NoDup.
  - apply (NoDup_map_inv get_geo_id_hw), Hnd.
  - intros r. apply geo_records_unique_In. exact Hnd.
Qed.

Lemma exported_map_is_permutation_of_input_witness :
  Permutation (link_infos (get_hardware_map (service_of_map example_map)))
              (link_infos example_map).
Proof.
  apply exported_map_is_permutation_of_input. solve_NoDup.
Defined.

(** ** What the reading loop does with each line *)

(** The first character of [s] that is neither a space nor a tab. *)
Fixpoint first_nonblank (s : string) : option ascii :=
  match s with
  | EmptyString => None
  | String c rest => if contains blanks c then first_nonblank rest else Some c
  end.

(** A line with a first non-blank character other than [#]. *)
Definition record_line (line : string) : bool :=
  match first_nonblank line with
  | Some c => negb (Ascii.eqb c "#")
  | None => false
  end.

(** A non-empty line of spaces and tabs only. *)
Definition blank_only (line : string) : bool :=
  negb (size line =? 0) &&
  match first_nonblank line with
  | Some _ => false
  | None => true
  end.

Lemma first_nonblank_Some (s : string) (c : ascii) :
  first_nonblank s = Some c ->
  exists ws rest, s = (ws ++ String c rest)%string /\
                  all_in blanks ws = true /\ contains blanks c = false.
Proof.
  induction s as [| a s IH]; cbn [first_nonblank]; [discriminate |].
  destruct (contains blanks a) eqn:Ha.
  - intros Hs. destruct (IH Hs) as [ws [rest [-> [Hws Hc]]]].
    exists (String a ws), rest. cbn [append all_in]. rewrite Ha, Hws. auto.
  - intros [= ->]. exists EmptyString, s. auto.
Qed.

Lemma first_nonblank_None (s : string) :
  first_nonblank s = None -> all_in blanks s = true.
Proof.
  induction s as [| a s IH]; cbn [first_nonblank all_in]; [reflexivity |].
  destruct (contains blanks a); [| discriminate]. exact IH.
Qed.

Lemma size_zero (s : string) : size s = 0 -> s = EmptyString.
Proof.
  destruct s; [reflexivity |]. unfold size; cbn [String.length]. lia.
Qed.

Lemma read_line_cases (dflt : HWInfo) (link_infos : list HWInfo) (line : string) :
  size line < npos ->
  read_line dflt link_infos line =
    if blank_only line then OutOfBounds
    else if record_line line then Return (link_infos ++ [read_fields dflt line])
    else Return link_infos.
Proof.
  intros Hsize. unfold blank_only, record_line.
  destruct (Z.eqb_spec (size line) 0) as [Hz | Hnz].
  - rewrite (size_zero line Hz). reflexivity.
  - cbn [negb andb]. destruct (first_nonblank line) as [c |] eqn:Hfirst.
    + destruct (first_nonblank_Some line c Hfirst) as [ws [rest [-> [Hws Hc]]]].
      unfold read_line.
      destruct (Z.eqb_spec (size (ws ++ String c rest)) 0); [contradiction |].
      change (String " " (String "009" EmptyString)) with blanks.
      rewrite (proj2 (read_line_index_in_bounds ws rest c Hws Hc)).
      destruct (Ascii.eqb c "#"); reflexivity.
    + apply read_line_blanks_only.
      * intros ->. apply Hnz. reflexivity.
      * apply first_nonblank_None. exact Hfirst.
      * exact Hsize.
Qed.

Lemma read_lines_never_throws (dflt : HWInfo) (lines : list string)
    (link_infos : list HWInfo) (e : exception) :
  read_lines dflt lines link_infos <> Throw e.
Proof.
  revert link_infos. induction lines as [| line rest IH]; intros link_infos;
    cbn [read_lines]; [discriminate |].
  unfold read_line.
  destruct (size line =? 0); [apply IH |].
  destruct (string_at line _) as [c |]; [| discriminate].
  destruct (Ascii.eqb c "#"); apply IH.
Qed.

(** X11: the reading loop, on lines shorter than [npos], runs into the
    out-of-bounds access exactly when some line is a non-empty run of
    spaces and tabs; otherwise it returns, having appended one record for
    each line whose first non-blank character is not [#], in file order,
    and nothing for the empty and the comment lines. *)
Theorem read_lines_outcome (dflt : HWInfo) (lines : list string)
    (link_infos : list HWInfo) :
  (forall line, In line lines -> size line < npos) ->
  read_lines dflt lines link_infos =
    if existsb blank_only lines then OutOfBounds
    else Return (link_infos ++
                 List.map (read_fields dflt) (filter record_line lines)).
Proof.
  revert link_infos. induction lines as [| line rest IH]; intros link_infos Hsize;
    cbn [read_lines existsb filter List.map].
  - rewrite app_nil_r. reflexivity.
  - rewrite read_line_cases by (apply Hsize; left; reflexivity).
    destruct (blank_only line); cbn [orb]; [reflexivity |].
    assert (Hrest : forall l, In l rest -> size l < npos)
      by (intros l Hl; apply Hsize; right; exact Hl).
    destruct (record_line line); rewrite (IH _ Hrest);
      destruct (existsb blank_only rest); try reflexivity.
    cbn [List.map]. rewrite <- app_assoc. reflexivity.
Qed.

Lemma read_lines_outcome_witness :
  read_lines example_default
    ["# header"%string; "7 0 0 1 2 hostA 10 0 0"%string; EmptyString] [] =
  Return [example_link 7 2 "hostA" 10 0].
Proof.
  apply (read_lines_outcome example_default
           ["# header"%string; "7 0 0 1 2 hostA 10 0 0"%string; EmptyString] []).
  intros line Hin. simpl in Hin.
  repeat (destruct Hin as [<- | Hin]; [vm_compute; reflexivity |]).
  destruct Hin.
Defined.

(** X12: the constructor from a file throws in one case only, when the
    file cannot be opened, and then with the message that names the file;
    nothing in the content of a file makes it throw. *)
Theorem service_of_file_throws_iff_unopened
    (dflt : HWInfo) (open_file : string -> option string) (filename : string)
    (e : exception) :
  service_of_file dflt open_file filename = Throw e <->
  open_file filename = None /\
  e = runtime_error ("HardwareMapService: Invalid map file " ++ filename)%string.
Proof.
  unfold service_of_file, read_hardware_map.
  destruct (open_file filename) as [content |].
  - split; [| intros [Hc _]; discriminate].
    destruct (read_lines dflt (getlines content) []) as [l | e' |] eqn:Hr;
      try discriminate.
    exfalso. exact (read_lines_never_throws _ _ _ _ Hr).
  - split.
    + intros [= <-]. split; reflexivity.
    + intros [_ ->]. reflexivity.
Qed.

(** ** The records read from a file *)

Ltac split_extractions :=
  repeat match goal with
         | |- context [extract_unsigned ?b ?s ?v] =>
             let s' := fresh "strm" in
             let v' := fresh "v" in
             let E := fresh "E" in
             destruct (extract_unsigned b s v) as [s' v'] eqn:E
         | |- context [extract_string ?s ?v] =>
             let s' := fresh "strm" in
             let v' := fresh "w" in
             let E := fresh "E" in
             destruct (extract_string s v) as [s' v'] eqn:E
         end.

Lemma read_fields_from_file (dflt : HWInfo) (line : string) :
  from_file (read_fields dflt line) = true.
Proof. unfold read_fields. split_extractions. reflexivity. Qed.

Lemma read_lines_from_file (dflt : HWInfo) (lines : list string)
    (link_infos out : list HWInfo) :
  read_lines dflt lines link_infos = Return out ->
  Forall (fun r => from_file r = true) link_infos ->
  Forall (fun r => from_file r = true) out.
Proof.
  revert link_infos. induction lines as [| line rest IH]; intros link_infos;
    cbn [read_lines].
  - intros [= <-] Hall. exact Hall.
  - unfold read_line. destruct (size line =? 0); [apply IH |].
    destruct (string_at line _) as [c |]; [| discriminate].
    destruct (Ascii.eqb c "#"); [apply IH |].
    intros Hr Hall. apply (IH _ Hr). apply Forall_app. split; [exact Hall |].
    constructor; [apply read_fields_from_file | constructor].
Qed.

(** X13: in a service constructed from a file every record is marked
    [from_file], so the flag of the result of [get_hw_info_from_geo_id]
    tells a found record from the not-found answer: it is [true] exactly
    for the geo-ids of the exported records. *)
Theorem from_file_flag_tells_presence
    (dflt : HWInfo) (open_file : string -> option string) (filename : string)
    (svc : HardwareMapService) :
  service_of_file dflt open_file filename = Return svc ->
  (forall r, In r (link_infos (get_hardware_map svc)) -> from_file r = true) /\
  (forall g, from_file (get_hw_info_from_geo_id dflt svc g) = true <->
             exists r, In r (link_infos (get_hardware_map svc)) /\
                       get_geo_id_hw r = g).
Proof.
  unfold service_of_file, read_hardware_map.
  destruct (open_file filename) as [content |]; [| discriminate].
  destruct (read_lines dflt (getlines content) []) as [l | |] eqn:Hr;
    try discriminate.
  intros [= <-]. fold (service_of_map (mkHardwareMap l)).
  pose proof (read_lines_from_file _ _ _ _ Hr (Forall_nil _)) as Hall.
  rewrite Forall_forall in Hall. rewrite get_hardware_map_records.
  assert (Hrec : forall r, In r (geo_records (service_of_map (mkHardwareMap l))) ->
                           In r l).
  { intros r Hin. apply geo_records_In, last_with_geo_id_Some in Hin. apply Hin. }
  split; [intros r Hin; apply Hall, Hrec, Hin |].
  intros g. unfold get_hw_info_from_geo_id. rewrite service_geo_find.
  cbn [link_infos].
  destruct (last_with_geo_id g l) as [r |] eqn:Hl.
  - destruct (last_with_geo_id_Some _ _ _ Hl) as [Hin Hg]. split.
    + intros _. exists r. split; [| exact Hg].
      apply geo_records_In. rewrite Hg. exact Hl.
    + intros _. apply Hall. exact Hin.
  - cbn [set_from_file from_file]. split; [discriminate |].
    intros [r [Hin Hg]]. exfalso.
    exact (proj1 (last_with_geo_id_None _ _) Hl r (Hrec r Hin) Hg).
Qed.

Lemma from_file_flag_tells_presence_witness :
  exists svc,
    service_of_file example_default (fun _ => Some scenario_file) "map.txt" =
      Return svc /\
    (forall r, In r (link_infos (get_hardware_map svc)) -> from_file r = true) /\
    (forall g, from_file (get_hw_info_from_geo_id example_default svc g) = true <->
               exists r, In r (link_infos (get_hardware_map svc)) /\
                         get_geo_id_hw r = g).
Proof.
  eexists. split; [vm_compute; reflexivity |].
  apply (from_file_flag_tells_presence example_default
           (fun _ => Some scenario_file) "map.txt").
  vm_compute. reflexivity.
Defined.

(** The numeric fields of a record are within their types: 32 bits for
    the source id and 16 bits for the others. *)
Definition HWInfo_in_range (h : HWInfo) : Prop :=
  0 <= dro_source_id h < 2 ^ 32 /\
  is_uint16 (det_link h) /\ is_uint16 (det_slot h) /\
  is_uint16 (det_crate h) /\ is_uint16 (det_id h) /\
  is_uint16 (dro_card h) /\ is_uint16 (dro_slr h) /\ is_uint16 (dro_link h).

Lemma read_digits_nonneg (s : string) (acc : Z) (any : bool) :
  0 <= acc -> 0 <= fst (fst (read_digits s acc any)).
Proof.
  revert acc any. induction s as [| c s IH]; intros acc any Hacc;
    cbn [read_digits]; [exact Hacc |].
  destruct (isdigit c) eqn:Hd; [| exact Hacc].
  apply IH. unfold isdigit in Hd. apply andb_prop in Hd. destruct Hd as [Hlo _].
  apply N.leb_le in Hlo. unfold digit_value. lia.
Qed.

Lemma extract_unsigned_range (bits : Z) (strm : istream) (v : Z) :
  0 < bits -> 0 <= v < 2 ^ bits ->
  0 <= snd (extract_unsigned bits strm v) < 2 ^ bits.
Proof.
  intros Hbits Hv. unfold extract_unsigned.
  assert (Hpow : 0 < 2 ^ bits) by (apply Z.pow_pos_nonneg; lia).
  destruct (failbit strm); [exact Hv |].
  destruct (skipws (unread strm)) as [| c rest]; [exact Hv |].
  match goal with
  | |- context [read_digits ?s 0 false] =>
      pose proof (read_digits_nonneg s 0 false (Z.le_refl 0)) as Hm;
      destruct (read_digits s 0 false) as [[magnitude any] rest']
  end.
  cbn [fst] in Hm.
  destruct (negb any); cbn [snd]; [lia |].
  destruct (Z.ltb_spec (2 ^ bits - 1) magnitude); cbn [snd]; [lia |].
  destruct (Ascii.eqb c "-"); [apply Z.mod_pos_bound; lia | lia].
Qed.

(** X14: when the default-constructed record has its numeric fields
    within their types, so has the record read from any line, whatever
    the line holds (digits too many, signs, or nothing to read). *)
Theorem read_fields_in_range (dflt : HWInfo) (line : string) :
  HWInfo_in_range dflt -> HWInfo_in_range (read_fields dflt line).
Proof.
  unfold HWInfo_in_range, is_uint16.
  intros [H1 [H2 [H3 [H4 [H5 [H6 [H7 H8]]]]]]].
  unfold read_fields. split_extractions.
  cbn [dro_source_id det_link det_slot det_crate det_id dro_card dro_slr dro_link].
  repeat match goal with
         | E : extract_unsigned ?b ?s ?v = _ |- _ =>
             let H := fresh "Hrange" in
             assert (H : 0 <= snd (extract_unsigned b s v) < 2 ^ b)
               by (apply extract_unsigned_range; [lia | assumption]);
             rewrite E in H; cbn [snd] in H; clear E
         end.
  repeat split; lia.
Qed.

Lemma read_fields_in_range_witness :
  HWInfo_in_range (read_fields example_default "99999999999 -1 70000 x").
Proof.
  apply read_fields_in_range. unfold HWInfo_in_range, is_uint16. simpl. lia.
Defined.

(** ** Lines that do not hold a record *)

Lemma skipws_empty_prefix (ws : string) (c : ascii) (rest : string) :
  skipws (ws ++ String c rest) = EmptyString -> isspace c = true.
Proof.
  induction ws as [| w ws IH]; cbn [append skipws].
  - destruct (isspace c); [reflexivity | discriminate].
  - destruct (isspace w); [exact IH | discriminate].
Qed.

Lemma read_fields_nothing_to_read (dflt : HWInfo) (line : string) :
  skipws line = EmptyString -> read_fields dflt line = set_from_file true dflt.
Proof.
  intros Hws. unfold read_fields, extract_unsigned, extract_string.
  cbn [failbit unread]. rewrite Hws. cbn [failbit]. reflexivity.
Qed.

(** X15: a line of white space that is not only spaces and tabs (a lone
    carriage return, say) is neither skipped nor out of bounds: nothing
    can be read from it, and a record with every field at its default
    value, marked [from_file], is appended. *)
Theorem whitespace_line_appends_default_record
    (dflt : HWInfo) (link_infos : list HWInfo) (line : string) (c : ascii) :
  skipws line = EmptyString -> first_nonblank line = Some c ->
  read_line dflt link_infos line =
    Return (link_infos ++ [set_from_file true dflt]).
Proof.
  intros Hws Hfirst.
  destruct (first_nonblank_Some line c Hfirst) as [ws [rest [-> [Hblank Hc]]]].
  pose proof (skipws_empty_prefix ws c rest Hws) as Hspace.
  unfold read_line.
  destruct (Z.eqb_spec (size (ws ++ String c rest)) 0) as [Hz | _].
  - apply size_zero in Hz. destruct ws; discriminate.
  - change (String " " (String "009" EmptyString)) with blanks.
    rewrite (proj2 (read_line_index_in_bounds ws rest c Hblank Hc)).
    destruct (Ascii.eqb_spec c "#") as [-> | _]; [discriminate |].
    rewrite read_fields_nothing_to_read by exact Hws. reflexivity.
Qed.

Lemma whitespace_line_appends_default_record_witness :
  read_line example_default [] (String "013" EmptyString) =
    Return [set_from_file true example_default].
Proof.
  apply (whitespace_line_appends_default_record example_default []
           (String "013" EmptyString) "013"); reflexivity.
Defined.

(** X16: when the first token of a line starts with a character that is
    neither a digit nor a sign, the first extraction fails: the source id
    is zero, the other eight fields keep their default values, and the
    record is marked [from_file] all the same. *)
Theorem read_fields_non_numeric_first_token
    (dflt : HWInfo) (line : string) (c : ascii) (rest : string) :
  skipws line = String c rest ->
  isdigit c = false -> c <> "-"%char -> c <> "+"%char ->
  read_fields dflt line =
    mkHWInfo 0 (det_link dflt) (det_slot dflt) (det_crate dflt) (det_id dflt)
             (dro_host dflt) (dro_card dflt) (dro_slr dflt) (dro_link dflt) true.
Proof.
  intros Hws Hd Hminus Hplus.
  unfold read_fields, extract_unsigned at 1. cbn [failbit unread]. rewrite Hws.
  destruct (Ascii.eqb_spec c "-"); [contradiction |].
  destruct (Ascii.eqb_spec c "+"); [contradiction |].
  cbn [orb read_digits]. rewrite Hd. cbn [negb].
  unfold extract_unsigned, extract_string. cbn [failbit]. reflexivity.
Qed.

Lemma read_fields_non_numeric_first_token_witness :
  read_fields example_default "hostA 1 2 3" =
    mkHWInfo 0 0 0 0 0 "localhost" 0 0 0 true.
Proof.
  apply (read_fields_non_numeric_first_token example_default "hostA 1 2 3"
           "h" "ostA 1 2 3"); [reflexivity | reflexivity | discriminate | discriminate].
Defined.

(** ** Reading back a written map file *)

(** The value of a decimal numeral read from the left, continuing [acc]. *)
Fixpoint uint_value (d : Decimal.uint) (acc : Z) : Z :=
  match d with
  | Decimal.Nil => acc
  | Decimal.D0 l => uint_value l (10 * acc + 0)
  | Decimal.D1 l => uint_value l (10 * acc + 1)
  | Decimal.D2 l => uint_value l (10 * acc + 2)
  | Decimal.D3 l => uint_value l (10 * acc + 3)
  | Decimal.D4 l => uint_value l (10 * acc + 4)
  | Decimal.D5 l => uint_value l (10 * acc + 5)
  | Decimal.D6 l => uint_value l (10 * acc + 6)
  | Decimal.D7 l => uint_value l (10 * acc + 7)
  | Decimal.D8 l => uint_value l (10 * acc + 8)
  | Decimal.D9 l => uint_value l (10 * acc + 9)
  end.

(** A text that does not go on with a digit. *)
Definition starts_nondigit (s : string) : Prop :=
  match s with
  | EmptyString => True
  | String c _ => isdigit c = false
  end.

(** A text that is empty or goes on with white space. *)
Definition starts_space (s : string) : Prop :=
  match s with
  | EmptyString => True
  | String c _ => isspace c = true
  end.

(** A word: not empty and free of white space. *)
Fixpoint no_space (w : string) : bool :=
  match w with
  | EmptyString => true
  | String c rest => negb (isspace c) && no_space rest
  end.

Definition is_word (w : string) : Prop := w <> EmptyString /\ no_space w = true.

(** A line that holds the nine fields of a record in the order in which
    the loop reads them, separated by single spaces. *)
Definition format_line (h : HWInfo) : string :=
  (decimal (dro_source_id h) ++ String " " (
   decimal (det_link h) ++ String " " (
   decimal (det_slot h) ++ String " " (
   decimal (det_crate h) ++ String " " (
   decimal (det_id h) ++ String " " (
   dro_host h ++ String " " (
   decimal (dro_card h) ++ String " " (
   decimal (dro_slr h) ++ String " " (
   decimal (dro_link h) ++ EmptyString)))))))))%string.

(** A file with one line for each record. *)
Fixpoint format_file (hs : list HWInfo) : string :=
  match hs with
  | [] => EmptyString
  | h :: rest => (format_line h ++ String newline (format_file rest))%string
  end.

Lemma of_uint_acc_value (d : Decimal.uint) (acc : positive) :
  Zpos (Pos.of_uint_acc d acc) = uint_value d (Zpos acc).
Proof.
  revert acc. induction d as [| d IH | d IH | d IH | d IH | d IH | d IH | d IH
                              | d IH | d IH | d IH]; intros acc;
    cbn [Pos.of_uint_acc uint_value]; [reflexivity | ..];
    rewrite IH; f_equal; lia.
Qed.

Lemma of_uint_value (d : Decimal.uint) : Z.of_N (Pos.of_uint d) = uint_value d 0.
Proof.
  induction d as [| d IH | d IH | d IH | d IH | d IH | d IH | d IH
                  | d IH | d IH | d IH];
    cbn [Pos.of_uint uint_value]; [reflexivity | exact IH | ..];
    cbn [Z.of_N]; rewrite of_uint_acc_value; reflexivity.
Qed.

Lemma to_uint_value (n : Z) : 0 <= n -> uint_value (N.to_uint (Z.to_N n)) 0 = n.
Proof.
  intros Hn. rewrite <- of_uint_value.
  change (Pos.of_uint (N.to_uint (Z.to_N n))) with (N.of_uint (N.to_uint (Z.to_N n))).
  rewrite DecimalN.Unsigned.of_to. apply Z2N.id. exact Hn.
Qed.

Lemma to_uint_nonnil (n : N) : N.to_uint n <> Decimal.Nil.
Proof.
  destruct n as [| p]; [discriminate | apply DecimalPos.Unsigned.to_uint_nonnil].
Qed.

Lemma decimal_digits (n : Z) :
  decimal n = NilEmpty.string_of_uint (N.to_uint (Z.to_N n)).
Proof.
  unfold decimal, NilZero.string_of_uint.
  pose proof (to_uint_nonnil (Z.to_N n)) as Hnn.
  destruct (N.to_uint (Z.to_N n)); [contradiction | reflexivity ..].
Qed.

Lemma read_digits_numeral (d : Decimal.uint) (rest : string) (acc : Z) (any : bool) :
  starts_nondigit rest ->
  read_digits (NilEmpty.string_of_uint d ++ rest) acc any =
    (uint_value d acc, match d with Decimal.Nil => any | _ => true end, rest).
Proof.
  intros Hrest. revert acc any.
  induction d as [| d IH | d IH | d IH | d IH | d IH | d IH | d IH
                  | d IH | d IH | d IH]; intros acc any;
    cbn [NilEmpty.string_of_uint append uint_value].
  1: { destruct rest as [| c rest]; [reflexivity |].
       cbn [read_digits]. cbn in Hrest. rewrite Hrest. reflexivity. }
  all: cbn [read_digits];
    match goal with
    | |- context [isdigit ?c] => change (isdigit c) with true
    end;
    cbn match; rewrite IH; destruct d; reflexivity.
Qed.

Lemma isdigit_not_space (c : ascii) : isdigit c = true -> isspace c = false.
Proof.
  unfold isdigit, isspace. intros H. apply andb_prop in H. destruct H as [Hlo Hhi].
  apply N.leb_le in Hlo. apply N.leb_le in Hhi.
  destruct (N.eqb_spec (N_of_ascii c) 32); [lia |].
  destruct (N.leb_spec 9 (N_of_ascii c)); [| reflexivity].
  destruct (N.leb_spec (N_of_ascii c) 13); [lia | reflexivity].
Qed.

(** The decimal text of a number starts with a digit. *)
Lemma decimal_head (n : Z) :
  exists c tl, decimal n = String c tl /\ isdigit c = true.
Proof.
  rewrite decimal_digits. pose proof (to_uint_nonnil (Z.to_N n)) as Hnn.
  destruct (N.to_uint (Z.to_N n)); [contradiction | ..];
    cbn [NilEmpty.string_of_uint]; eexists; eexists; split; reflexivity.
Qed.

Lemma skipws_decimal (n : Z) (rest : string) :
  skipws (decimal n ++ rest) = (decimal n ++ rest)%string.
Proof.
  destruct (decimal_head n) as [c [tl [-> Hc]]]. cbn [append skipws].
  rewrite (isdigit_not_space c Hc). reflexivity.
Qed.

(** Extracting an unsigned number from its decimal text. *)
Lemma extract_unsigned_decimal (bits n : Z) (s rest : string) (v : Z) :
  0 <= n < 2 ^ bits -> starts_nondigit rest ->
  skipws s = (decimal n ++ rest)%string ->
  extract_unsigned bits (mkStream s false) v = (mkStream rest false, n).
Proof.
  intros Hn Hrest Hs. unfold extract_unsigned. cbn [failbit unread]. rewrite Hs.
  destruct (decimal_head n) as [c [tl [Hdec Hc]]].
  assert (Hminus : Ascii.eqb c "-" = false)
    by (destruct (Ascii.eqb_spec c "-") as [-> |]; [discriminate | reflexivity]).
  assert (Hplus : Ascii.eqb c "+" = false)
    by (destruct (Ascii.eqb_spec c "+") as [-> |]; [discriminate | reflexivity]).
  assert (Hread : read_digits (decimal n ++ rest) 0 false = (n, true, rest)).
  { rewrite decimal_digits, read_digits_numeral by exact Hrest.
    rewrite to_uint_value by lia.
    pose proof (to_uint_nonnil (Z.to_N n)) as Hnn.
    destruct (N.to_uint (Z.to_N n)); [contradiction | reflexivity ..]. }
  rewrite Hdec in *. cbn [append] in *.
  rewrite Hminus, Hplus. cbn [orb]. rewrite Hread. cbn [negb].
  destruct (Z.ltb_spec (2 ^ bits - 1) n); [lia | reflexivity].
Qed.

Lemma read_word_word (w rest : string) :
  no_space w = true -> starts_space rest -> read_word (w ++ rest) = (w, rest).
Proof.
  intros Hw Hrest. induction w as [| c w IH]; cbn [append].
  - destruct rest as [| c rest]; [reflexivity |]. cbn [read_word].
    cbn in Hrest. rewrite Hrest. reflexivity.
  - cbn [no_space] in Hw. apply andb_prop in Hw. destruct Hw as [Hc Hw].
    cbn [read_word]. apply negb_true_iff in Hc. rewrite Hc, (IH Hw). reflexivity.
Qed.

(** Extracting a word. *)
Lemma extract_string_word (w s rest v : string) :
  is_word w -> starts_space rest -> skipws s = (w ++ rest)%string ->
  extract_string (mkStream s false) v = (mkStream rest false, w).
Proof.
  intros [Hne Hw] Hrest Hs. unfold extract_string. cbn [failbit unread].
  rewrite Hs. destruct w as [| c w]; [contradiction |]. cbn [append].
  change (String c (w ++ rest)) with (String c w ++ rest)%string.
  rewrite (read_word_word _ _ Hw Hrest). reflexivity.
Qed.

Lemma skipws_word (w rest : string) :
  is_word w -> skipws (w ++ rest) = (w ++ rest)%string.
Proof.
  intros [Hne Hw]. destruct w as [| c w]; [contradiction |].
  cbn [no_space] in Hw. apply andb_prop in Hw. destruct Hw as [Hc _].
  apply negb_true_iff in Hc. cbn [append skipws]. rewrite Hc. reflexivity.
Qed.

(** A record whose fields can be written and read back. *)
Definition writable (h : HWInfo) : Prop :=
  HWInfo_in_range h /\ is_word (dro_host h).

Lemma skipws_space (s : string) : skipws (String " " s) = skipws s.
Proof. reflexivity. Qed.

Ltac extract_number n H :=
  erewrite (extract_unsigned_decimal _ n);
  [ | exact H | | rewrite ?skipws_space; apply skipws_decimal ];
  [ | first [exact I | reflexivity] ].

Lemma read_fields_format_line (dflt h : HWInfo) :
  writable h -> read_fields dflt (format_line h) = set_from_file true h.
Proof.
  intros [[H1 [H2 [H3 [H4 [H5 [H6 [H7 H8]]]]]]] Hhost].
  unfold is_uint16 in *. unfold read_fields, format_line.
  extract_number (dro_source_id h) H1.
  extract_number (det_link h) H2.
  extract_number (det_slot h) H3.
  extract_number (det_crate h) H4.
  extract_number (det_id h) H5.
  erewrite (extract_string_word (dro_host h));
    [ | exact Hhost | | rewrite ?skipws_space; apply skipws_word; exact Hhost ];
    [ | reflexivity ].
  extract_number (dro_card h) H6.
  extract_number (dro_slr h) H7.
  extract_number (dro_link h) H8.
  reflexivity.
Qed.

(** A run of white space. *)
Fixpoint all_space (s : string) : bool :=
  match s with
  | EmptyString => true
  | String c rest => isspace c && all_space rest
  end.

(** A separator: a non-empty run of white space. *)
Definition separator (s : string) : Prop := s <> EmptyString /\ all_space s = true.

Lemma skipws_all_space (ws s : string) :
  all_space ws = true -> skipws (ws ++ s) = skipws s.
Proof.
  induction ws as [| c ws IH]; cbn [all_space append]; [reflexivity |].
  intros [Hc Hws]%andb_prop. cbn [skipws]. rewrite Hc. exact (IH Hws).
Qed.

Lemma separator_starts (ws s : string) :
  separator ws -> starts_nondigit (ws ++ s) /\ starts_space (ws ++ s).
Proof.
  intros [Hne Hws]. destruct ws as [| c ws]; [contradiction |].
  cbn [all_space] in Hws. apply andb_prop in Hws. destruct Hws as [Hc _].
  cbn [append starts_nondigit starts_space]. split; [| exact Hc].
  destruct (isdigit c) eqn:Hd; [| reflexivity].
  rewrite (isdigit_not_space c Hd) in Hc. discriminate.
Qed.

Ltac extract_separated n H Hsep :=
  erewrite (extract_unsigned_decimal _ n);
  [ | exact H
    |
    | rewrite skipws_all_space by (first [assumption | apply Hsep]);
      apply skipws_decimal ];
  [ | first [assumption | apply separator_starts; assumption] ].

(** X17: a line that holds nine fields in the order source id, link,
    slot, crate, id, host, card, SLR, link, after optional white space,
    separated by any non-empty runs of white space, and followed by
    anything that does not go on with a digit, is read as the record with
    these fields, marked [from_file]; none of the default values is used. *)
Theorem read_fields_of_separated_fields
    (dflt h : HWInfo) (s0 s1 s2 s3 s4 s5 s6 s7 s8 tail : string) :
  writable h ->
  all_space s0 = true ->
  separator s1 -> separator s2 -> separator s3 -> separator s4 ->
  separator s5 -> separator s6 -> separator s7 -> separator s8 ->
  starts_nondigit tail ->
  read_fields dflt
    (s0 ++ decimal (dro_source_id h) ++ s1 ++ decimal (det_link h) ++
     s2 ++ decimal (det_slot h) ++ s3 ++ decimal (det_crate h) ++
     s4 ++ decimal (det_id h) ++ s5 ++ dro_host h ++
     s6 ++ decimal (dro_card h) ++ s7 ++ decimal (dro_slr h) ++
     s8 ++ decimal (dro_link h) ++ tail)%string =
  set_from_file true h.
Proof.
  intros [[H1 [H2 [H3 [H4 [H5 [H6 [H7 H8]]]]]]] Hhost]
         Hs0 Hs1 Hs2 Hs3 Hs4 Hs5 Hs6 Hs7 Hs8 Htail.
  unfold is_uint16 in *. unfold read_fields.
  extract_separated (dro_source_id h) H1 Hs0.
  extract_separated (det_link h) H2 (proj2 Hs1).
  extract_separated (det_slot h) H3 (proj2 Hs2).
  extract_separated (det_crate h) H4 (proj2 Hs3).
  extract_separated (det_id h) H5 (proj2 Hs4).
  erewrite (extract_string_word (dro_host h));
    [ | exact Hhost
      |
      | rewrite skipws_all_space by apply (proj2 Hs5);
        apply skipws_word; exact Hhost ];
    [ | apply separator_starts; assumption ].
  extract_separated (dro_card h) H6 (proj2 Hs6).
  extract_separated (dro_slr h) H7 (proj2 Hs7).
  extract_separated (dro_link h) H8 (proj2 Hs8).
  reflexivity.
Qed.

Lemma read_fields_of_separated_fields_witness :
  read_fields example_default
    (String "009" "7  0 0 1 2   hostA 10 0 1 # the second link") =
  example_link 7 2 "hostA" 10 1.
Proof.
  apply (read_fields_of_separated_fields example_default
           (example_link 7 2 "hostA" 10 1)
           (String "009" EmptyString) "  " " " " " " " "   " " " " " " "
           " # the second link");
    try (split; [discriminate | reflexivity]); try reflexivity.
  split; [| split; [discriminate | reflexivity]].
  unfold HWInfo_in_range, is_uint16. simpl. lia.
Defined.

Lemma contains_append (a b : string) (c : ascii) :
  contains (a ++ b) c = contains a c || contains b c.
Proof.
  induction a as [| x a IH]; cbn [append contains]; [reflexivity |].
  rewrite IH, orb_assoc. reflexivity.
Qed.

Lemma numeral_no_newline (d : Decimal.uint) :
  contains (NilEmpty.string_of_uint d) newline = false.
Proof.
  induction d; cbn [NilEmpty.string_of_uint contains]; [reflexivity | ..];
    rewrite IHd; reflexivity.
Qed.

Lemma word_no_newline (w : string) :
  no_space w = true -> contains w newline = false.
Proof.
  induction w as [| c w IH]; cbn [no_space contains]; [reflexivity |].
  intros [Hc Hw]%andb_prop. rewrite (IH Hw), orb_false_r.
  destruct (Ascii.eqb_spec newline c) as [<- | _]; [discriminate | reflexivity].
Qed.

Lemma format_line_no_newline (h : HWInfo) :
  is_word (dro_host h) -> contains (format_line h) newline = false.
Proof.
  intros [_ Hw]. unfold format_line.
  repeat (rewrite contains_append; cbn [contains]).
  rewrite !decimal_digits, !numeral_no_newline, (word_no_newline _ Hw).
  reflexivity.
Qed.

Lemma getlines_line (line rest : string) :
  contains line newline = false ->
  getlines (line ++ String newline rest) = line :: getlines rest.
Proof.
  induction line as [| c line IH]; cbn [append contains]; [reflexivity |].
  intros [Hc Hl]%orb_false_elim. cbn [getlines].
  rewrite Ascii.eqb_sym, Hc, (IH Hl). reflexivity.
Qed.

Lemma getlines_format_file (hs : list HWInfo) :
  Forall writable hs -> getlines (format_file hs) = List.map format_line hs.
Proof.
  induction 1 as [| h hs [_ Hw] _ IH]; cbn [format_file List.map]; [reflexivity |].
  rewrite getlines_line by (apply format_line_no_newline; exact Hw).
  rewrite IH. reflexivity.
Qed.

Lemma isdigit_not_blank (c : ascii) :
  isdigit c = true -> contains blanks c = false /\ Ascii.eqb c "#" = false.
Proof.
  intros Hd. unfold blanks. cbn [contains]. split.
  - destruct (Ascii.eqb_spec c " ") as [-> |]; [discriminate |].
    destruct (Ascii.eqb_spec c "009") as [-> |]; [discriminate | reflexivity].
  - destruct (Ascii.eqb_spec c "#") as [-> |]; [discriminate | reflexivity].
Qed.

Lemma read_line_format_line (dflt : HWInfo) (link_infos : list HWInfo) (h : HWInfo) :
  writable h ->
  read_line dflt link_infos (format_line h) =
    Return (link_infos ++ [set_from_file true h]).
Proof.
  intros Hh. rewrite <- (read_fields_format_line dflt h Hh).
  assert (Hhead : exists c tl, format_line h = String c tl /\ isdigit c = true).
  { unfold format_line. destruct (decimal_head (dro_source_id h)) as [c [tl [-> Hc]]].
    cbn [append]. eauto. }
  destruct Hhead as [c [tl [Hline Hc]]]. rewrite Hline.
  destruct (isdigit_not_blank c Hc) as [Hblank Hhash].
  unfold read_line.
  destruct (Z.eqb_spec (size (String c tl)) 0) as [Hz | _];
    [apply size_zero in Hz; discriminate |].
  change (String " " (String "009" EmptyString)) with blanks.
  pose proof (proj2 (read_line_index_in_bounds EmptyString tl c eq_refl Hblank))
    as Hat.
  cbn [append] in Hat. rewrite Hat, Hhash. reflexivity.
Qed.

Lemma read_lines_format_lines (dflt : HWInfo) (hs link_infos : list HWInfo) :
  Forall writable hs ->
  read_lines dflt (List.map format_line hs) link_infos =
    Return (link_infos ++ List.map (set_from_file true) hs).
Proof.
  intros Hall. revert link_infos.
  induction Hall as [| h hs Hh _ IH]; intros link_infos; cbn [List.map read_lines].
  - rewrite app_nil_r. reflexivity.
  - rewrite (read_line_format_line dflt link_infos h Hh), IH, <- app_assoc.
    reflexivity.
Qed.

(** X18: a file written with one line for each record, the nine fields in
    reading order separated by single spaces, is read back whole: the
    constructor returns the service of exactly these records, in file
    order and marked [from_file], provided the numeric fields are within
    their types and every host is a non-empty word without white space. *)
Theorem written_file_reads_back
    (dflt : HWInfo) (hs : list HWInfo)
    (open_file : string -> option string) (filename : string) :
  Forall writable hs ->
  open_file filename = Some (format_file hs) ->
  read_hardware_map dflt (format_file hs) =
    Return (mkHardwareMap (List.map (set_from_file true) hs)) /\
  service_of_file dflt open_file filename =
    Return (service_of_map (mkHardwareMap (List.map (set_from_file true) hs))).
Proof.
  intros Hall Hopen.
  assert (Hread : read_hardware_map dflt (format_file hs) =
                  Return (mkHardwareMap (List.map (set_from_file true) hs))).
  { unfold read_hardware_map.
    rewrite (getlines_format_file hs Hall), (read_lines_format_lines dflt hs [] Hall).
    reflexivity. }
  split; [exact Hread |].
  unfold service_of_file. rewrite Hopen, Hread. reflexivity.
Qed.

Lemma written_file_reads_back_witness :
  read_hardware_map example_default (format_file (link_infos example_map)) =
    Return example_map /\
  service_of_file example_default
    (fun _ => Some (format_file (link_infos example_map))) "map.txt" =
    Return (service_of_map example_map).
Proof.
  apply (written_file_reads_back example_default (link_infos example_map)
           (fun _ => Some (format_file (link_infos example_map))) "map.txt").
  - repeat constructor; try discriminate; unfold is_uint16; simpl; lia.
  - reflexivity.
Defined.

(** ** The order of the exported hardware map *)

(** The order of records by link, then slot, then crate, then id. *)
Definition det_lt (a b : HWInfo) : Prop :=
  det_link a < det_link b \/
  (det_link a = det_link b /\
   (det_slot a < det_slot b \/
    (det_slot a = det_slot b /\
     (det_crate a < det_crate b \/
      (det_crate a = det_crate b /\ det_id a < det_id b))))).

Lemma geo_id_lt_det_lt (a b : HWInfo) :
  HWInfo_in_range a -> HWInfo_in_range b ->
  get_geo_id_hw a < get_geo_id_hw b -> det_lt a b.
Proof.
  unfold HWInfo_in_range, get_geo_id_hw, det_lt.
  intros [_ [Ha1 [Ha2 [Ha3 [Ha4 _]]]]] [_ [Hb1 [Hb2 [Hb3 [Hb4 _]]]]].
  rewrite !get_geo_id_sum by assumption. unfold is_uint16 in *. lia.
Qed.

Lemma StronglySorted_det_lt (l : list HWInfo) :
  Forall HWInfo_in_range l ->
  StronglySorted Z.lt (List.map get_geo_id_hw l) -> StronglySorted det_lt l.
Proof.
  induction l as [| a l IH]; cbn [List.map]; intros Hr Hs; [constructor |].
  apply StronglySorted_inv in Hs. destruct Hs as [Hs Ha].
  apply Forall_cons_iff in Hr. destruct Hr as [Hra Hrl].
  constructor; [exact (IH Hrl Hs) |].
  rewrite Forall_forall in *. intros b Hb.
  apply geo_id_lt_det_lt; [exact Hra | exact (Hrl b Hb) |].
  apply Ha, in_map, Hb.
Qed.

(** X19: when the numeric fields of the input records are within their
    types, [get_hardware_map] lists the records in strictly ascending
    order of (link, slot, crate, id), whatever the input order. *)
Theorem exported_map_is_sorted_by_det_fields (map : HardwareMap) :
  Forall HWInfo_in_range (link_infos map) ->
  StronglySorted det_lt (link_infos (get_hardware_map (service_of_map map))).
Proof.
  intros Hr. rewrite get_hardware_map_records.
  apply StronglySorted_det_lt; [| apply geo_records_sorted].
  rewrite Forall_forall in *. intros r Hin. apply Hr.
  apply geo_records_In, last_with_geo_id_Some in Hin. apply Hin.
Qed.

Lemma exported_map_is_sorted_by_det_fields_witness :
  StronglySorted det_lt (link_infos (get_hardware_map (service_of_map example_map))).
Proof.
  apply exported_map_is_sorted_by_det_fields.
  repeat constructor; unfold is_uint16; simpl; lia.
Defined.

(** ** The channel map adapter, on recognised channels *)

(** X20: the two queries by offline channel agree, as both rest on the
    same lookup: when the coordinates are absent the plane is [9999];
    when they are present the lookup was valid, the plane is the one of
    the record, crate, fiber and channel are the record's crate, link and
    frame channel, and the slot is the WIB number less one in unsigned
    arithmetic (a WIB number of zero gives slot [2^32 - 1]). *)
Theorem adapter_offline_channel_queries_agree
    (self : PD2HDChannelMap.t) (offchannel : Z) :
  let ci := dune.GetChanInfoFromOfflChan
              (PD2HDChannelMap.m_channel_map self) offchannel in
  match PD2HDChannelMap.get_crate_slot_fiber_chan_from_offline_channel
          self offchannel with
  | None =>
      dune.valid ci = false /\
      PD2HDChannelMap.get_plane_from_offline_channel self offchannel = 9999
  | Some coords =>
      dune.valid ci = true /\
      PD2HDChannelMap.get_plane_from_offline_channel self offchannel =
        uint (dune.plane ci) /\
      PD2HDChannelMap.crate coords = dune.crate ci /\
      PD2HDChannelMap.fiber coords = dune.link ci /\
      PD2HDChannelMap.channel coords = dune.wibframechan ci /\
      uint (PD2HDChannelMap.slot coords + 1) = uint (dune.wib ci) /\
      (dune.wib ci = 0 -> PD2HDChannelMap.slot coords = 2 ^ 32 - 1)
  end.
Proof.
  intros ci.
  unfold PD2HDChannelMap.get_crate_slot_fiber_chan_from_offline_channel,
    PD2HDChannelMap.get_plane_from_offline_channel.
  fold ci. destruct (dune.valid ci); cbn [negb].
  - cbn [PD2HDChannelMap.crate PD2HDChannelMap.fiber PD2HDChannelMap.channel
         PD2HDChannelMap.slot].
    repeat split.
    + unfold uint. rewrite Zplus_mod_idemp_l. f_equal. lia.
    + intros ->. reflexivity.
  - split; reflexivity.
Qed.

(** X21: the answer of [get_offline_channel_from_crate_slot_fiber_chan]
    is always a 32-bit value, and an answer other than [2^32 - 1] is
    never made up: it is the offline channel of a valid record. *)
Theorem adapter_offline_channel_is_genuine
    (self : PD2HDChannelMap.t) (crate slot link wibframechan : Z) :
  let ci := dune.GetChanInfoFromWIBElements
              (PD2HDChannelMap.m_channel_map self) crate slot link wibframechan in
  let answer := PD2HDChannelMap.get_offline_channel_from_crate_slot_fiber_chan
                  self crate slot link wibframechan in
  0 <= answer < 2 ^ 32 /\
  (answer <> 2 ^ 32 - 1 ->
   dune.valid ci = true /\ answer = uint (dune.offlchan ci)).
Proof.
  intros ci answer. unfold answer,
    PD2HDChannelMap.get_offline_channel_from_crate_slot_fiber_chan.
  fold ci. destruct (dune.valid ci); cbn [negb].
  - split; [apply Z.mod_pos_bound; lia |]. intros _. split; reflexivity.
  - split; [unfold uint; cbn; lia |]. intros Hne. exfalso. apply Hne. reflexivity.
Qed.
